(** * gym-ai-coach: the prompt assembler of [coach.py]

    A shallow embedding of [load_markdown_context], [load_yaml_context] and
    [build_prompt], with the parts of the Python runtime they call
    ([str.strip], [str.join], [str.format], list slicing, [sorted],
    [pathlib]), and the properties of the aggregators and of the prompt
    builder. *)

From Stdlib Require Import List ZArith NArith Lia Bool.
From Stdlib Require Import Sorted Permutation.
From Stdlib Require Ascii String DecimalString.
Import ListNotations String.StringSyntax.

Local Open Scope Z_scope.

(** ** Python strings

    A Python [str] is a sequence of Unicode code points: [len] counts code
    points and slicing cuts between them. *)

Definition char := N.
Definition str := list char.

(** Literals of the source are written as Rocq strings (UTF-8 bytes) and
    decoded to code points. *)

Fixpoint utf8_decode (bs : list N) : str :=
  match bs with
  | [] => []
  | b0 :: t0 =>
    if (b0 <? 128)%N then b0 :: utf8_decode t0
    else match t0 with
    | [] => [65533%N]
    | b1 :: t1 =>
      if (b0 <? 224)%N
      then ((b0 - 192) * 64 + (b1 - 128))%N :: utf8_decode t1
      else match t1 with
      | [] => [65533%N]
      | b2 :: t2 =>
        if (b0 <? 240)%N
        then ((b0 - 224) * 4096 + (b1 - 128) * 64 + (b2 - 128))%N
               :: utf8_decode t2
        else match t2 with
        | [] => [65533%N]
        | b3 :: t3 =>
          ((b0 - 240) * 262144 + (b1 - 128) * 4096
             + (b2 - 128) * 64 + (b3 - 128))%N :: utf8_decode t3
        end
      end
    end
  end.

Definition lit (s : String.string) : str :=
  utf8_decode (map Ascii.N_of_ascii (String.list_ascii_of_string s)).

Arguments lit s%_string_scope : simpl never.

(** ["\n"] and the double quote, which a Rocq string cannot spell. *)
Definition nl : str := [10%N].
Definition dq : str := [34%N].

(** [len(s)] *)
Definition len {A : Type} (l : list A) : Z := Z.of_nat (length l).

(** [str(n)] for an [int]: decimal digits, with a minus sign below zero. *)
Definition str_of_int (z : Z) : str :=
  lit (DecimalString.NilZero.string_of_int (Z.to_int z)).

(** [l[:k]]: a negative bound counts from the end; bounds are clamped. *)
Definition slice_to {A : Type} (l : list A) (k : Z) : list A :=
  if k <? 0 then firstn (Z.to_nat (len l + k)) l
  else firstn (Z.to_nat k) l.

(** [sep.join(l)] *)
Fixpoint join (sep : str) (l : list str) : str :=
  match l with
  | [] => []
  | [x] => x
  | x :: l' => x ++ sep ++ join sep l'
  end.

(** [str.isspace] on one code point (CPython's [_PyUnicode_IsWhitespace]). *)
Definition isspace (c : char) : bool :=
  ((9 <=? c) && (c <=? 13) || (28 <=? c) && (c <=? 32)
   || (c =? 133) || (c =? 160) || (c =? 5760)
   || (8192 <=? c) && (c <=? 8202)
   || (c =? 8232) || (c =? 8233) || (c =? 8239) || (c =? 8287)
   || (c =? 12288))%N.

Fixpoint lstrip (s : str) : str :=
  match s with
  | [] => []
  | c :: s' => if isspace c then lstrip s' else s
  end.

Definition rstrip (s : str) : str := rev (lstrip (rev s)).

(** [s.strip()]: whitespace removed at both ends. *)
Definition strip (s : str) : str := lstrip (rstrip s).

(** [s.split(sep)] for a one-character separator. *)
Fixpoint split (sep : char) (s : str) : list str :=
  match s with
  | [] => [[]]
  | c :: s' =>
    if (c =? sep)%N then [] :: split sep s'
    else match split sep s' with
         | [] => [[c]]
         | w :: ws => (c :: w) :: ws
         end
  end.

Definition str_eqb (a b : str) : bool :=
  if list_eq_dec N.eq_dec a b then true else false.

(** [a < b] on [str] compares code points lexicographically. *)
Definition str_compare : str -> str -> comparison := list_compare N.compare.

(** ** pathlib (POSIX flavour)

    A pure path is a root (empty, ["/"] or ["//"]) and the components after
    it. *)

Record Path := mkPath { root : str; tail : list str }.

Definition slash : char := 47%N.

(** [posixpath.splitroot]: exactly two leading slashes are kept as they are,
    any other number of them is one. *)
Definition splitroot (s : str) : str :=
  match s with
  | a :: s1 =>
    if (a =? slash)%N then
      match s1 with
      | b :: s2 =>
        if (b =? slash)%N then
          match s2 with
          | c :: _ => if (c =? slash)%N then [slash] else [slash; slash]
          | [] => [slash; slash]
          end
        else [slash]
      | [] => [slash]
      end
    else []
  | [] => []
  end.

(** [Path(s)]: empty components and ["."] are dropped. *)
Definition parse_path (s : str) : Path :=
  mkPath (splitroot s)
         (filter (fun c => negb (str_eqb c [] || str_eqb c (lit ".")))
                 (split slash s)).

(** [p / name] *)
Definition joinpath (p : Path) (name : str) : Path :=
  let q := parse_path name in
  match root q with
  | [] => mkPath (root p) (tail p ++ tail q)
  | _ => q
  end.

(** [str(p)] *)
Definition path_str (p : Path) : str :=
  match root p, tail p with
  | [], [] => lit "."
  | r, t => r ++ join [slash] t
  end.

(** [p.name] *)
Definition path_name (p : Path) : str := last (tail p) [].

(** The entry [n] of the directory [d], as [glob] builds it. *)
Definition child (d : Path) (n : str) : Path :=
  mkPath (root d) (tail d ++ [n]).

(** [p < q] compares the parts, component by component. *)
Definition parts (p : Path) : list str :=
  match root p with
  | [] => tail p
  | r => r :: tail p
  end.

Definition path_compare (p q : Path) : comparison :=
  list_compare str_compare (parts p) (parts q).

Definition path_ltb (p q : Path) : bool :=
  match path_compare p q with Lt => true | _ => false end.

Definition path_eqb (p q : Path) : bool :=
  str_eqb (root p) (root q)
  && if list_eq_dec (list_eq_dec N.eq_dec) (tail p) (tail q)
     then true else false.

(** [sorted(l)]: a stable sort that only asks [<] of its elements. *)
Fixpoint insert_sorted (x : Path) (l : list Path) : list Path :=
  match l with
  | [] => [x]
  | y :: l' => if path_ltb y x then y :: insert_sorted x l' else x :: l
  end.

Definition sorted (l : list Path) : list Path :=
  fold_right insert_sorted [] l.

(** ** The file system

    What the program asks of the file system: whether a path exists, whether
    it is a directory, the names of a directory's entries (in the order the
    system gives them) and the decoded text of a file. Reading returns
    [None] where Python raises [OSError]; undecodable bytes never fail,
    since the source decodes with [errors="replace"].

    [fs_exists] and [fs_is_dir] are what [exists()] and [is_dir()] answer.
    Where the interpreter lets the underlying [stat] error through instead
    of answering (an [OSError] other than ENOENT, ENOTDIR, EBADF and
    ELOOP), the run ends there with no result; the record has no such
    outcome, so what is proved below about a check is about its answer, and
    nothing below says that a run fails only in the ways the record
    has. *)

Record FileSystem := mkFS {
  fs_exists : Path -> bool;
  fs_is_dir : Path -> bool;
  fs_scandir : Path -> list str;
  fs_read_text : Path -> option str
}.

(** [fnmatch] for patterns of literal characters, [*] and [?]. *)
Fixpoint fnmatch (pat name : str) : bool :=
  match pat with
  | [] => match name with [] => true | _ => false end
  | c :: pat' =>
    if (c =? 42)%N then
      (fix star (n : str) : bool :=
         fnmatch pat' n
         || match n with [] => false | _ :: n' => star n' end) name
    else
      match name with
      | [] => false
      | d :: name' => ((c =? 63) || (c =? d))%N && fnmatch pat' name'
      end
  end.

(** [d.glob(pat)] for a pattern of one component: the matching entries of
    [d], each as a child path of [d]. *)
Definition glob (fs : FileSystem) (d : Path) (pat : str) : list Path :=
  map (child d) (filter (fnmatch pat) (fs_scandir fs d)).

(** ** coach.py *)

Definition DEFAULT_MD_FILES : list str :=
  [lit "goals.md"; lit "skills.md"; lit "injuries.md"; lit "availability.md"].

Definition read_text_file (fs : FileSystem) (path : Path) : option str :=
  fs_read_text fs path.

(** The two f-strings of [load_markdown_context]. *)
Definition md_missing_chunk (name : str) (p : Path) : str :=
  lit "--- " ++ name ++ lit " (MISSING: " ++ path_str p ++ lit ") ---" ++ nl.

Definition md_chunk (name text : str) : str :=
  lit "--- " ++ name ++ lit " ---" ++ nl ++ text ++ nl.

(** The loop of [load_markdown_context]; [chunks] is the list built so
    far. *)
Fixpoint md_loop (fs : FileSystem) (data_dir : Path) (md_files : list str)
    (chunks : list str) : option (list str) :=
  match md_files with
  | [] => Some chunks
  | name :: rest =>
    let p := joinpath data_dir name in
    if negb (fs_exists fs p) then
      md_loop fs data_dir rest (chunks ++ [md_missing_chunk name p])
    else
      match read_text_file fs p with
      | None => None
      | Some text => md_loop fs data_dir rest (chunks ++ [md_chunk name text])
      end
  end.

Definition md_chunks (fs : FileSystem) (data_dir : Path)
    (md_files : list str) : option (list str) :=
  md_loop fs data_dir md_files [].

Definition load_markdown_context (fs : FileSystem) (data_dir : Path)
    (md_files : list str) : option str :=
  match md_chunks fs data_dir md_files with
  | None => None
  | Some chunks => Some (strip (join nl chunks))
  end.

Definition NO_YAML_FOLDER : str := lit "(No YAML folder found. Skipping.)".
Definition NO_YAML_FILES : str := lit "(No YAML files found. Skipping.)".

Definition TRUNCATED : str := nl ++ lit "... (truncated)" ++ nl.

(** The text of a file as the loop of [load_yaml_context] keeps it. *)
Definition truncate (max_chars_per_file : Z) (text : str) : str :=
  if len text >? max_chars_per_file
  then slice_to text max_chars_per_file ++ TRUNCATED
  else text.

Definition yaml_chunk (name text : str) : str :=
  lit "--- " ++ name ++ lit " ---" ++ nl ++ text ++ nl.

Definition yaml_summary (n : Z) : str :=
  lit "... (" ++ str_of_int n ++ lit " more YAML files not included)" ++ nl.

Fixpoint yaml_loop (fs : FileSystem) (max_chars_per_file : Z)
    (files : list Path) (chunks : list str) : option (list str) :=
  match files with
  | [] => Some chunks
  | p :: rest =>
    match read_text_file fs p with
    | None => None
    | Some text =>
      yaml_loop fs max_chars_per_file rest
        (chunks ++ [yaml_chunk (path_name p) (truncate max_chars_per_file text)])
    end
  end.

(** [sorted(list(d.glob("*.yml")) + list(d.glob("*.yaml")))] *)
Definition yaml_files (fs : FileSystem) (yaml_dir : Path) : list Path :=
  sorted (glob fs yaml_dir (lit "*.yml") ++ glob fs yaml_dir (lit "*.yaml")).

(** The chunks of [load_yaml_context] once the files are listed: the loop
    over the slice, then the summary when files were left out. *)
Definition yaml_chunks (fs : FileSystem) (files : list Path)
    (max_files max_chars_per_file : Z) : option (list str) :=
  match yaml_loop fs max_chars_per_file (slice_to files max_files) [] with
  | None => None
  | Some chunks =>
    if len files >? max_files
    then Some (chunks ++ [yaml_summary (len files - max_files)])
    else Some chunks
  end.

Definition load_yaml_context (fs : FileSystem) (yaml_dir : Path)
    (max_files max_chars_per_file : Z) : option str :=
  if negb (fs_exists fs yaml_dir) || negb (fs_is_dir fs yaml_dir)
  then Some NO_YAML_FOLDER
  else
    let files := yaml_files fs yaml_dir in
    match files with
    | [] => Some NO_YAML_FILES
    | _ :: _ =>
      match yaml_chunks fs files max_files max_chars_per_file with
      | None => None
      | Some chunks => Some (strip (join nl chunks))
      end
    end.

(** The text between the triple quotes of [PROMPT_TEMPLATE], line by
    line. *)
Definition PROMPT_TEMPLATE_lines : list str :=
  [ lit "SYSTEM / ROLE";
    [];
    lit "You are my Gym Coach AI Agent. You generate training sessions that prioritize health, strength, flexibility, and endurance. You must respect my constraints and avoid sudden spikes in workload.";
    [];
    lit "DATA SOURCES (READ FIRST)";
    [];
    lit "1) Read these Markdown (source of truth):";
    [];
    lit "- data/goals.md";
    lit "- data/skills.md";
    lit "- data/injuries.md";
    lit "- data/availability.md";
    [];
    lit "1) Read and analyze all YAML that are in the prompt";
    [];
    lit "Use them to learn my personal trainer’s session style and formatting patterns (exercise order, blocks, typical rep ranges, typical loads, rounding, warm-up structure). Keep continuity with my trainer’s approach.";
    [];
    lit "RULES";
    [];
    lit "- Output must be 5 WEEK plan for my available days (Mon, Tue, Wed, Thu, Sun).";
    lit "- Each session must fit within 60 minutes including warm-up.";
    lit "- Each sessions must include 9 excersises in total divided into 3 blocks of 3 exercises each.";
    lit "- Each block must have a short title (e.g., " ++ dq ++ lit "Strength Upper Body" ++ dq ++ lit ", " ++ dq ++ lit "Core + Mobility" ++ dq ++ lit ", " ++ dq ++ lit "Endurance Run" ++ dq ++ lit ").";
    lit "- Each exercise must have Load, Reps, Rounds, and Notes fields.";
    lit "- Use only exercises that I can do with my available equipment and mobility.";
    lit "- Prioritize my known exercises unless the YAML history strongly indicates other staples.";
    lit "- Running volume must increase gradually; protect my ankle (past sprain, occasional mild pain ~2/7). Avoid sudden increases in impact or intensity.";
    lit "- I swim at least once per week; I am starting to run.";
    lit "- I have: barbell + plates, dumbbells, stability ball, plyometric box.";
    lit "- I have no mobility limitations (but include mobility work as supportive).";
    lit "- Prefer exercises I already know (Deadlift, Bench Press, Single-Arm Dumbbell Row, Barbell Row) unless the YAML history strongly indicates other staples.";
    [];
    lit "AUTO-PROGRESSION:";
    [];
    lit "- Review the training history to establish a baseline.";
    lit "- Weeks 1–3 of the new block should progress gradually from that baseline.";
    lit "- Week 4 may be the highest load/volume.";
    lit "- Week 5 should be a deload (10–20% volume reduction).";
    lit "- Do not exceed safe progression rules for running, strength, or swimming.";
    lit "- Each day should work different training cores. ";
    lit "- Should have at least one swimming training on wednesday.";
    [];
    lit "OUTPUT FORMAT";
    lit "Return ONLY:";
    [];
    lit "1) Create an excel with the information for 5 weeks (one spreadsheet per week).";
    lit "2) A short line with the week title (example: " ++ dq ++ lit "Week Plan — Week of YYYY-MM-DD" ++ dq ++ lit ").";
    lit "NO extra commentary. NO markdown tables. NO bullets. No explanations.";
    [];
    lit "Spreadsheet columns must be exactly:";
    lit "Day,Session Title,Exercise,Block, Load,Reps,Notes";
    [];
    lit "Definitions:";
    [];
    lit "- Day: Monday/Tuesday/Wednesday/Thursday/Sunday";
    lit "- Session Title: short session name (e.g., " ++ dq ++ lit "Strength Lower + Core" ++ dq ++ lit ")";
    lit "- Exercise: exercise name in English and spanish";
    lit "- Load: write as kg (e.g., " ++ dq ++ lit "40 kg" ++ dq ++ lit ")";
    lit "- Reps: reps per round or time (e.g., " ++ dq ++ lit "10-12" ++ dq ++ lit " or " ++ dq ++ lit "25 min" ++ dq ++ lit ")";
    lit "- Block: separate blocks of 3 exercises each (e.g., " ++ dq ++ lit "Block 1" ++ dq ++ lit ", " ++ dq ++ lit "Block 2" ++ dq ++ lit ", " ++ dq ++ lit "Block 3" ++ dq ++ lit ")";
    lit "- Notes: brief cues or rest times";
    [];
    lit "QUALITY CHECK BEFORE OUTPUT";
    [];
    lit "- Ensure every row has ALL columns filled";
    lit "- Ensure YouTubeURL and PhotoURL are valid https URLs";
    lit "- Ensure session duration fits 60 minutes";
    lit "- Ensure gradual running progression and ankle protection";
    [];
    lit "========================";
    lit "MARKDOWN CONTEXT";
    lit "========================";
    lit "{markdown_context}";
    [];
    lit "========================";
    lit "YAML TRAINING HISTORY (REFERENCE ONLY)";
    lit "========================";
    lit "{yaml_context}" ].

(** Every line of the literal, the last one too, ends with a newline. *)
Definition PROMPT_TEMPLATE : str :=
  concat (map (fun l => l ++ nl) PROMPT_TEMPLATE_lines).

(** ** str.format

    The fragment of [str.format] that a template of text, doubled braces
    and named fields exercises. [None] stands for the exception Python
    raises (a lone brace, an unknown or positional field with no argument
    for it) and also for the field syntax left out of this model
    (conversions, format specifications, attribute and index lookups). *)

Inductive fmt_mode :=
| InText
| AfterOpen
| AfterClose
| InField (name : str).

Definition lbrace : char := 123%N.
Definition rbrace : char := 125%N.

(** Characters that end or structure a field name. *)
Definition field_special (c : char) : bool :=
  ((c =? lbrace) || (c =? 33) || (c =? 58) || (c =? 46) || (c =? 91))%N.

Fixpoint lookup_kw (name : str) (kwargs : list (str * str)) : option str :=
  match kwargs with
  | [] => None
  | (k, v) :: rest => if str_eqb k name then Some v else lookup_kw name rest
  end.

Fixpoint format_go (kwargs : list (str * str)) (mode : fmt_mode) (t : str)
    : option str :=
  match t with
  | [] => match mode with InText => Some [] | _ => None end
  | c :: t' =>
    match mode with
    | InText =>
      if (c =? lbrace)%N then format_go kwargs AfterOpen t'
      else if (c =? rbrace)%N then format_go kwargs AfterClose t'
      else option_map (cons c) (format_go kwargs InText t')
    | AfterOpen =>
      if (c =? lbrace)%N then option_map (cons c) (format_go kwargs InText t')
      else if (c =? rbrace)%N then None
      else if field_special c then None
      else format_go kwargs (InField [c]) t'
    | AfterClose =>
      if (c =? rbrace)%N then option_map (cons c) (format_go kwargs InText t')
      else None
    | InField name =>
      if (c =? rbrace)%N then
        match lookup_kw name kwargs with
        | None => None
        | Some v => option_map (app v) (format_go kwargs InText t')
        end
      else if field_special c then None
      else format_go kwargs (InField (name ++ [c])) t'
    end
  end.

Definition format (template : str) (kwargs : list (str * str)) : option str :=
  format_go kwargs InText template.

Definition build_prompt (markdown_context yaml_context : str) : option str :=
  format PROMPT_TEMPLATE
    [(lit "markdown_context", markdown_context);
     (lit "yaml_context", yaml_context)].

(** The part of [main] between the parsed options and the write: the text
    of the prompt, from the two directories and [--max-yaml-files]. *)
Definition main_prompt (fs : FileSystem) (data_dir yaml_dir : Path)
    (max_yaml_files : Z) : option str :=
  match load_markdown_context fs data_dir DEFAULT_MD_FILES with
  | None => None
  | Some markdown_context =>
    match load_yaml_context fs yaml_dir max_yaml_files 12000 with
    | None => None
    | Some yaml_context => build_prompt markdown_context yaml_context
    end
  end.

(** ** Example file systems *)

Definition parent (p : Path) : Path := mkPath (root p) (removelast (tail p)).

(** The file system that holds the directories [dirs] and the files
    [files], each with its text, and nothing else. *)
Definition fs_of (dirs : list Path) (files : list (Path * str)) : FileSystem :=
  mkFS
    (fun p => existsb (path_eqb p) dirs
              || existsb (fun f => path_eqb p (fst f)) files)
    (fun p => existsb (path_eqb p) dirs)
    (fun d => map path_name
                (filter (fun q => path_eqb (parent q) d
                                  && negb (path_eqb q d))
                        (map fst files ++ dirs)))
    (fun p => option_map snd (find (fun f => path_eqb p (fst f)) files)).

Definition data_dir0 : Path := parse_path (lit "data").
Definition yaml_dir0 : Path := parse_path (lit "gym-data").

(** Nothing on disk at all. *)
Definition fs_empty : FileSystem := fs_of [] [].

(** The end-to-end example: one Markdown file, no YAML directory. *)
Definition fs_goals : FileSystem :=
  fs_of [data_dir0] [(joinpath data_dir0 (lit "goals.md"), lit "Goal: run 5k")].

(** Three YAML files, listed by the system out of order, next to a file
    that is not YAML. *)
Definition fs_three : FileSystem :=
  fs_of [yaml_dir0]
    [(child yaml_dir0 (lit "c.yml"), lit "C");
     (child yaml_dir0 (lit "a.yml"), lit "abc");
     (child yaml_dir0 (lit "notes.txt"), lit "N");
     (child yaml_dir0 (lit "b.yaml"), lit "B")].

(** [gym-data] is a regular file. *)
Definition fs_plain_file : FileSystem :=
  fs_of [] [(yaml_dir0, lit "x")].

(** [gym-data] is a directory without YAML files. *)
Definition fs_no_yaml : FileSystem :=
  fs_of [yaml_dir0] [(child yaml_dir0 (lit "notes.txt"), lit "N")].

(** The three YAML files of [fs_three], where [c.yml] cannot be read. *)
Definition fs_unreadable : FileSystem :=
  mkFS (fs_exists fs_three) (fs_is_dir fs_three) (fs_scandir fs_three)
       (fun p => if path_eqb p (child yaml_dir0 (lit "c.yml")) then None
                 else fs_read_text fs_three p).

(** [fs_three], with every directory listed in the opposite order. *)
Definition fs_three_reversed : FileSystem :=
  mkFS (fs_exists fs_three) (fs_is_dir fs_three)
       (fun d => rev (fs_scandir fs_three d)) (fs_read_text fs_three).

(** * Properties *)

(** ** Words of the specification *)

(** [x] occurs in [s] as a substring. *)
Definition contains (x s : str) : Prop :=
  exists pre post, s = pre ++ x ++ post.

(** [s] ends with [suf]: some suffix of [s] is [suf]. *)
Fixpoint ends_with (suf s : str) : bool :=
  str_eqb s suf
  || match s with
     | [] => false
     | _ :: s' => ends_with suf s'
     end.

(** A name with one of the two YAML extensions. *)
Definition has_yaml_ext (name : str) : bool :=
  ends_with (lit ".yml") name || ends_with (lit ".yaml") name.

(** [a <= b] in the order of [str]. *)
Definition name_le (a b : str) : Prop := str_compare a b <> Gt.

(** The separator that leaves one empty line between two blocks. *)
Definition blank_line : str := nl ++ nl.

(** The text of a block: the chunk without the newline that ends it. *)
Definition block_text (chunk : str) : str := removelast chunk.

(** A chunk that ends with a newline. *)
Definition ends_nl (chunk : str) : Prop := exists t, chunk = t ++ nl.

(** Blocks joined with a blank-line separator, then trimmed. *)
Definition joined_trimmed (blocks : list str) : str :=
  strip (join blank_line blocks).

(** A block of the Markdown aggregator for [name]: the marker of a missing
    file, or the header and the text of a present one. *)
Definition md_block_of (fs : FileSystem) (data_dir : Path)
    (name chunk : str) : Prop :=
  let p := joinpath data_dir name in
  (fs_exists fs p = false /\ chunk = md_missing_chunk name p)
  \/ (fs_exists fs p = true
      /\ exists text, fs_read_text fs p = Some text
                      /\ chunk = md_chunk name text).

(** A block of the YAML aggregator for the file [p]. *)
Definition yaml_block_of (fs : FileSystem) (max_chars_per_file : Z)
    (p : Path) (chunk : str) : Prop :=
  exists text,
    fs_read_text fs p = Some text
    /\ chunk = yaml_chunk (path_name p) (truncate max_chars_per_file text).

(** [p <= q] on paths: [q < p] does not hold. *)
Definition path_le (p q : Path) : Prop := path_compare p q <> Gt.

(** A pattern character that stands for itself. *)
Definition literal_char (c : char) : bool :=
  (negb (c =? 42) && negb (c =? 63))%N.

(** The names that the two globs of [load_yaml_context] find in [d]. *)
Definition globbed_names (fs : FileSystem) (d : Path) : list str :=
  filter (fnmatch (lit "*.yml")) (fs_scandir fs d)
  ++ filter (fnmatch (lit "*.yaml")) (fs_scandir fs d).

(** Text that [str.format] copies as it is: no brace in it. *)
Definition brace_free (s : str) : bool :=
  forallb (fun c => negb (c =? lbrace) && negb (c =? rbrace))%N s.

(** Characters of a plain field name. *)
Definition field_name_ok (s : str) : bool :=
  forallb (fun c => negb (c =? rbrace)%N && negb (field_special c)) s.

Fixpoint starts_with (x s : str) : bool :=
  match x, s with
  | [], _ => true
  | _ :: _, [] => false
  | a :: x', b :: s' => (a =? b)%N && starts_with x' s'
  end.

(** The text before and the text after the first occurrence of [x]
    in [s]. *)
Fixpoint split_at_first (x s : str) {struct s} : option (str * str) :=
  if starts_with x s then Some ([], skipn (length x) s)
  else match s with
       | [] => None
       | c :: s' =>
         match split_at_first x s' with
         | None => None
         | Some (before, after) => Some (c :: before, after)
         end
       end.

Definition before_first (x s : str) : str :=
  match split_at_first x s with Some (b, _) => b | None => s end.

Definition after_first (x s : str) : str :=
  match split_at_first x s with Some (_, a) => a | None => [] end.

(** The three pieces of the template around its two placeholders. *)
Definition template_pre : str :=
  before_first (lit "{markdown_context}") PROMPT_TEMPLATE.

Definition template_mid : str :=
  before_first (lit "{yaml_context}")
    (after_first (lit "{markdown_context}") PROMPT_TEMPLATE).

Definition template_post : str :=
  after_first (lit "{yaml_context}")
    (after_first (lit "{markdown_context}") PROMPT_TEMPLATE).

(** The number of entries of [d] with a YAML extension. *)
Definition yaml_count (fs : FileSystem) (d : Path) : Z :=
  len (filter has_yaml_ext (fs_scandir fs d)).

(** The block of each file of a list, given the text of each. *)
Definition yaml_file_chunks (max_chars_per_file : Z) (files : list Path)
    (texts : list str) : list str :=
  map (fun pt => yaml_chunk (path_name (fst pt))
                   (truncate max_chars_per_file (snd pt)))
      (combine files texts).

(** The text of the summary line for [n] files, without its newline. *)
Definition yaml_summary_text (n : Z) : str :=
  lit "... (" ++ str_of_int n ++ lit " more YAML files not included)".

(** ** Three sentences of the specification, word for word

    Each is stated here for all integer bounds and all inputs, as the
    specification has it. *)


(** A text longer than the cap is kept as its first [max_chars_per_file]
    characters and the truncation marker; another text is kept as it is. *)
Definition truncation_stated (max_chars_per_file : Z) (text : str) : Prop :=
  (len text > max_chars_per_file ->
   exists kept rest,
     text = kept ++ rest
     /\ len kept = max_chars_per_file
     /\ truncate max_chars_per_file text = kept ++ TRUNCATED)
  /\ (len text <= max_chars_per_file ->
      truncate max_chars_per_file text = text).

(** The output of the YAML aggregator is its blocks joined with a blank
    line and trimmed. *)
Definition yaml_joined_stated (fs : FileSystem) (d : Path)
    (max_files max_chars_per_file : Z) : Prop :=
  load_yaml_context fs d max_files max_chars_per_file
  = option_map (fun chunks => joined_trimmed (map block_text chunks))
      (yaml_chunks fs (yaml_files fs d) max_files max_chars_per_file).

(** ** Strings *)

Lemma str_eqb_eq (a b : str) : str_eqb a b = true <-> a = b.
Proof.
  unfold str_eqb. destruct (list_eq_dec N.eq_dec a b); split; congruence.
Qed.

Lemma join_cons (sep x : str) (l : list str) :
  l <> [] -> join sep (x :: l) = x ++ sep ++ join sep l.
Proof. destruct l; [congruence | reflexivity]. Qed.

(** Chunks that each end with a newline, joined with a newline, are their
    texts joined with a blank line, and one last newline. *)
Lemma join_nl_blank_line (texts : list str) :
  texts <> [] ->
  join nl (map (fun t => t ++ nl) texts) = join blank_line texts ++ nl.
Proof.
  induction texts as [|t texts IH]; [congruence|]. intros _.
  destruct texts as [|t' texts]; [reflexivity|].
  rewrite join_cons by discriminate.
  change (map (fun t0 => t0 ++ nl) (t :: t' :: texts))
    with ((t ++ nl) :: map (fun t0 => t0 ++ nl) (t' :: texts)).
  rewrite join_cons by discriminate.
  rewrite IH by discriminate. unfold blank_line.
  now rewrite <- !app_assoc.
Qed.

Lemma lstrip_space_app (w s : str) :
  forallb isspace w = true -> lstrip (w ++ s) = lstrip s.
Proof.
  induction w as [|c w IH]; [reflexivity|]. cbn [forallb lstrip app].
  intros [Hc Hw]%andb_prop. rewrite Hc. now apply IH.
Qed.

Lemma lstrip_nonspace (c : char) (s : str) :
  isspace c = false -> lstrip (c :: s) = c :: s.
Proof. intros H. cbn [lstrip]. now rewrite H. Qed.

Lemma forallb_rev {A : Type} (f : A -> bool) (l : list A) :
  forallb f (rev l) = forallb f l.
Proof.
  induction l as [|a l IH]; [reflexivity|]. cbn [rev forallb].
  rewrite forallb_app, IH. cbn. now rewrite andb_true_r, andb_comm.
Qed.

Lemma rstrip_app_space (s w : str) :
  forallb isspace w = true -> rstrip (s ++ w) = rstrip s.
Proof.
  intros H. unfold rstrip. rewrite rev_app_distr, lstrip_space_app; auto.
  now rewrite forallb_rev.
Qed.

Lemma rstrip_nonspace (s : str) (c : char) :
  isspace c = false -> rstrip (s ++ [c]) = s ++ [c].
Proof.
  intros H. unfold rstrip. rewrite rev_app_distr. cbn [rev app].
  rewrite lstrip_nonspace by assumption.
  cbn [rev]. now rewrite rev_involutive.
Qed.

Lemma strip_app_space (s w : str) :
  forallb isspace w = true -> strip (s ++ w) = strip s.
Proof. intros H. unfold strip. now rewrite rstrip_app_space. Qed.

Lemma strip_app_nl (s : str) : strip (s ++ nl) = strip s.
Proof. now apply strip_app_space. Qed.

(** A string that starts and ends with characters that are not whitespace
    is its own [strip]. *)
Lemma strip_framed (a b : char) (m : str) :
  isspace a = false -> isspace b = false ->
  strip (a :: m ++ [b]) = a :: m ++ [b].
Proof.
  intros Ha Hb. unfold strip.
  change (a :: m ++ [b]) with ((a :: m) ++ [b]).
  rewrite rstrip_nonspace by assumption.
  now apply lstrip_nonspace.
Qed.

(** ** The loop of the Markdown aggregator *)

Section MarkdownLoop.

Variable fs : FileSystem.
Variable data_dir : Path.

(** The list built so far is only ever extended. *)
Lemma md_loop_acc (md_files : list str) (chunks : list str) :
  md_loop fs data_dir md_files chunks
  = option_map (app chunks) (md_loop fs data_dir md_files []).
Proof.
  revert chunks. induction md_files as [|name rest IH]; intros chunks.
  - cbn. now rewrite app_nil_r.
  - cbn [md_loop].
    destruct (negb (fs_exists fs (joinpath data_dir name))).
    + rewrite (IH (chunks ++ _)), (IH ([] ++ _)).
      destruct (md_loop fs data_dir rest []); cbn; [|reflexivity].
      now rewrite <- app_assoc.
    + destruct (read_text_file fs (joinpath data_dir name)); [|reflexivity].
      rewrite (IH (chunks ++ _)), (IH ([] ++ _)).
      destruct (md_loop fs data_dir rest []); cbn; [|reflexivity].
      now rewrite <- app_assoc.
Qed.

Lemma md_chunks_missing (name : str) (rest : list str) :
  fs_exists fs (joinpath data_dir name) = false ->
  md_chunks fs data_dir (name :: rest)
  = option_map (cons (md_missing_chunk name (joinpath data_dir name)))
               (md_chunks fs data_dir rest).
Proof.
  intros H. unfold md_chunks. cbn [md_loop]. rewrite H. cbn [negb].
  now rewrite md_loop_acc.
Qed.

Lemma md_chunks_present (name text : str) (rest : list str) :
  fs_exists fs (joinpath data_dir name) = true ->
  fs_read_text fs (joinpath data_dir name) = Some text ->
  md_chunks fs data_dir (name :: rest)
  = option_map (cons (md_chunk name text)) (md_chunks fs data_dir rest).
Proof.
  intros H R. unfold md_chunks. cbn [md_loop]. rewrite H. cbn [negb].
  unfold read_text_file. rewrite R. now rewrite md_loop_acc.
Qed.

Lemma md_chunks_unreadable (name : str) (rest : list str) :
  fs_exists fs (joinpath data_dir name) = true ->
  fs_read_text fs (joinpath data_dir name) = None ->
  md_chunks fs data_dir (name :: rest) = None.
Proof.
  intros H R. unfold md_chunks. cbn [md_loop]. rewrite H. cbn [negb].
  unfold read_text_file. now rewrite R.
Qed.

(** The chunks of a list of names are the chunks of its two halves. *)
Lemma md_chunks_app (before after : list str) :
  md_chunks fs data_dir (before ++ after)
  = match md_chunks fs data_dir before, md_chunks fs data_dir after with
    | Some b, Some a => Some (b ++ a)
    | _, _ => None
    end.
Proof.
  induction before as [|name before IH].
  - cbn [app]. change (md_chunks fs data_dir []) with (Some (@nil str)).
    now destruct (md_chunks fs data_dir after).
  - cbn [app].
    destruct (fs_exists fs (joinpath data_dir name)) eqn:E.
    + destruct (fs_read_text fs (joinpath data_dir name)) as [text|] eqn:R.
      * rewrite !(md_chunks_present _ text) by assumption. rewrite IH.
        destruct (md_chunks fs data_dir before); [|reflexivity].
        now destruct (md_chunks fs data_dir after).
      * now rewrite !md_chunks_unreadable.
    + rewrite !md_chunks_missing by assumption. rewrite IH.
      destruct (md_chunks fs data_dir before); [|reflexivity].
      now destruct (md_chunks fs data_dir after).
Qed.

(** When the loop ends, it has made one block for each name, in the
    order of the names. *)
Lemma md_chunks_blocks (md_files : list str) (chunks : list str) :
  md_chunks fs data_dir md_files = Some chunks ->
  Forall2 (md_block_of fs data_dir) md_files chunks.
Proof.
  revert chunks. induction md_files as [|name rest IH]; intros chunks.
  - intros [= <-]. constructor.
  - destruct (fs_exists fs (joinpath data_dir name)) eqn:E.
    + destruct (fs_read_text fs (joinpath data_dir name)) as [text|] eqn:R.
      * rewrite (md_chunks_present _ text) by assumption.
        destruct (md_chunks fs data_dir rest) as [cs|]; [|discriminate].
        intros [= <-]. constructor; [|now apply IH].
        right. split; [assumption|]. now exists text.
      * now rewrite md_chunks_unreadable.
    + rewrite md_chunks_missing by assumption.
      destruct (md_chunks fs data_dir rest) as [cs|]; [|discriminate].
      intros [= <-]. constructor; [|now apply IH].
      left. now split.
Qed.

End MarkdownLoop.

(** ** The loop of the YAML aggregator *)

Section YamlLoop.

Variable fs : FileSystem.
Variable max_chars_per_file : Z.

Lemma yaml_loop_acc (files : list Path) (chunks : list str) :
  yaml_loop fs max_chars_per_file files chunks
  = option_map (app chunks) (yaml_loop fs max_chars_per_file files []).
Proof.
  revert chunks. induction files as [|p rest IH]; intros chunks.
  - cbn. now rewrite app_nil_r.
  - cbn [yaml_loop]. destruct (read_text_file fs p); [|reflexivity].
    rewrite (IH (chunks ++ _)), (IH ([] ++ _)).
    destruct (yaml_loop fs max_chars_per_file rest []); cbn; [|reflexivity].
    now rewrite <- app_assoc.
Qed.

Lemma yaml_loop_cons (p : Path) (text : str) (rest : list Path) :
  fs_read_text fs p = Some text ->
  yaml_loop fs max_chars_per_file (p :: rest) []
  = option_map
      (cons (yaml_chunk (path_name p) (truncate max_chars_per_file text)))
      (yaml_loop fs max_chars_per_file rest []).
Proof.
  intros R. cbn [yaml_loop]. unfold read_text_file. rewrite R.
  now rewrite yaml_loop_acc.
Qed.

(** With every file of the list readable, the loop makes the block of
    each file, in the order of the list. *)
Lemma yaml_loop_blocks (files : list Path) (texts : list str) :
  Forall2 (fun p text => fs_read_text fs p = Some text) files texts ->
  yaml_loop fs max_chars_per_file files []
  = Some (map (fun pt => yaml_chunk (path_name (fst pt))
                           (truncate max_chars_per_file (snd pt)))
              (combine files texts)).
Proof.
  induction 1 as [|p text files texts R _ IH]; [reflexivity|].
  rewrite (yaml_loop_cons _ text) by assumption. now rewrite IH.
Qed.

End YamlLoop.

(** ** Lexicographic comparison *)

Section LexOrder.

Variable A : Type.
Variable cmp : A -> A -> comparison.
Hypothesis cmp_eq : forall x y, cmp x y = Eq <-> x = y.
Hypothesis cmp_opp : forall x y, cmp y x = CompOpp (cmp x y).
Hypothesis cmp_trans :
  forall x y z c, cmp x y = c -> cmp y z = c -> cmp x z = c.

Lemma list_compare_le_trans (x y z : list A) :
  list_compare cmp x y <> Gt -> list_compare cmp y z <> Gt ->
  list_compare cmp x z <> Gt.
Proof.
  intros Hxy Hyz.
  destruct (list_compare cmp x y) eqn:Exy; [| |congruence].
  - apply (list_compare_refl cmp cmp_eq) in Exy. now subst y.
  - destruct (list_compare cmp y z) eqn:Eyz; [| |congruence].
    + apply (list_compare_refl cmp cmp_eq) in Eyz. subst z.
      now rewrite Exy.
    + now rewrite (list_compare_trans cmp cmp_eq x y z cmp_trans cmp_opp
                     Exy Eyz).
Qed.

Lemma list_compare_snoc (l : list A) (a b : A) :
  list_compare cmp (l ++ [a]) (l ++ [b]) = cmp a b.
Proof.
  rewrite (list_compare_app cmp cmp_eq). cbn. now destruct (cmp a b).
Qed.

End LexOrder.

Lemma N_compare_trans (x y z : N) (c : comparison) :
  (x ?= y)%N = c -> (y ?= z)%N = c -> (x ?= z)%N = c.
Proof.
  destruct c; intros H1 H2.
  - apply N.compare_eq_iff in H1. apply N.compare_eq_iff in H2.
    subst. apply N.compare_refl.
  - change (x < y)%N in H1. change (y < z)%N in H2.
    change (x < z)%N. lia.
  - rewrite N.compare_gt_iff in *. lia.
Qed.

Lemma str_compare_eq (a b : str) : str_compare a b = Eq <-> a = b.
Proof. apply list_compare_refl, N.compare_eq_iff. Qed.

Lemma str_compare_opp (a b : str) :
  str_compare b a = CompOpp (str_compare a b).
Proof.
  apply list_compare_antisym; [apply N.compare_eq_iff|].
  intros x y. apply N.compare_antisym.
Qed.

Lemma str_compare_trans (a b c : str) (r : comparison) :
  str_compare a b = r -> str_compare b c = r -> str_compare a c = r.
Proof.
  apply list_compare_trans.
  - apply N.compare_eq_iff.
  - apply N_compare_trans.
  - intros x y. apply N.compare_antisym.
Qed.

(** ** The order of paths and [sorted] *)

Lemma path_compare_opp (p q : Path) :
  path_compare q p = CompOpp (path_compare p q).
Proof.
  apply list_compare_antisym; [apply str_compare_eq | apply str_compare_opp].
Qed.

Lemma path_ltb_false (p q : Path) : path_ltb q p = false <-> path_le p q.
Proof.
  unfold path_ltb, path_le. rewrite (path_compare_opp p q).
  destruct (path_compare p q); cbn; split; congruence.
Qed.

Lemma path_ltb_true (p q : Path) : path_ltb p q = true -> path_le p q.
Proof.
  unfold path_ltb, path_le. destruct (path_compare p q); congruence.
Qed.

Lemma path_le_trans (p q r : Path) : path_le p q -> path_le q r -> path_le p r.
Proof.
  apply list_compare_le_trans.
  - apply str_compare_eq.
  - apply str_compare_opp.
  - apply str_compare_trans.
Qed.

Lemma parts_child (d : Path) (n : str) : parts (child d n) = parts d ++ [n].
Proof. unfold parts, child. cbn. now destruct (root d). Qed.

(** Two entries of one directory compare as their names do. *)
Lemma path_compare_child (d : Path) (a b : str) :
  path_compare (child d a) (child d b) = str_compare a b.
Proof.
  unfold path_compare. rewrite !parts_child.
  apply list_compare_snoc, str_compare_eq.
Qed.

Lemma path_name_child (d : Path) (n : str) : path_name (child d n) = n.
Proof. unfold path_name, child. cbn. apply last_last. Qed.

Lemma insert_sorted_perm (x : Path) (l : list Path) :
  Permutation (insert_sorted x l) (x :: l).
Proof.
  induction l as [|y l IH]; [reflexivity|]. cbn [insert_sorted].
  destruct (path_ltb y x); [|reflexivity].
  rewrite IH. apply perm_swap.
Qed.

Lemma sorted_perm (l : list Path) : Permutation (sorted l) l.
Proof.
  induction l as [|x l IH]; [reflexivity|]. cbn [sorted fold_right].
  fold (sorted l). rewrite insert_sorted_perm. now constructor.
Qed.

Lemma insert_sorted_sorted (x : Path) (l : list Path) :
  StronglySorted path_le l -> StronglySorted path_le (insert_sorted x l).
Proof.
  induction 1 as [|y l Hl IH Hy]; cbn [insert_sorted].
  - repeat constructor.
  - destruct (path_ltb y x) eqn:E.
    + constructor; [assumption|].
      apply (Permutation_Forall (Permutation_sym (insert_sorted_perm x l))).
      constructor; [now apply path_ltb_true | assumption].
    + apply path_ltb_false in E. constructor; [now constructor|].
      constructor; [assumption|].
      revert Hy. apply Forall_impl. intros z. now apply path_le_trans.
  Qed.

Lemma sorted_sorted (l : list Path) : StronglySorted path_le (sorted l).
Proof.
  induction l as [|x l IH]; [constructor|]. cbn [sorted fold_right].
  now apply insert_sorted_sorted.
Qed.

(** Sorted entries of one directory have their names in order. *)
Lemma sorted_children_names (d : Path) (l : list Path) :
  Forall (fun p => exists n, p = child d n) l ->
  StronglySorted path_le l ->
  StronglySorted name_le (map path_name l).
Proof.
  intros Hc. induction 1 as [|p l Hl IH Hp]; [constructor|].
  inversion Hc as [|? ? [n ->] Hc']; subst. cbn [map].
  constructor; [now apply IH|].
  rewrite Forall_map. rewrite Forall_forall in *.
  intros q Hq. destruct (Hc' q Hq) as [m ->].
  rewrite !path_name_child. specialize (Hp _ Hq).
  unfold path_le in Hp. now rewrite path_compare_child in Hp.
Qed.


(** ** Globbing for the YAML extensions *)

(** A pattern without wildcards matches itself only. *)
Lemma fnmatch_literal (pat name : str) :
  forallb literal_char pat = true -> fnmatch pat name = str_eqb name pat.
Proof.
  intros H. apply eq_true_iff_eq. rewrite str_eqb_eq.
  revert name H. induction pat as [|c pat IH]; intros name H.
  - destruct name; cbn; split; congruence.
  - cbn [forallb] in H. apply andb_prop in H as [Hc Hpat].
    unfold literal_char in Hc. apply andb_prop in Hc as [H42 H63].
    apply negb_true_iff in H42, H63. cbn [fnmatch]. rewrite H42.
    destruct name as [|d name]; [split; congruence|].
    rewrite H63. cbn [orb]. rewrite andb_true_iff, N.eqb_eq, IH by assumption.
    split; [intros [-> ->]; reflexivity | intros [= -> ->]; now split].
Qed.

Lemma fnmatch_star_cons (pat : str) (c : char) (name : str) :
  fnmatch (42%N :: pat) (c :: name)
  = fnmatch pat (c :: name) || fnmatch (42%N :: pat) name.
Proof. reflexivity. Qed.

Lemma fnmatch_star_nil (pat : str) :
  fnmatch (42%N :: pat) [] = fnmatch pat [] || false.
Proof. reflexivity. Qed.

(** [*] before a literal suffix matches the names that end with it. *)
Lemma fnmatch_star_literal (suf name : str) :
  forallb literal_char suf = true ->
  fnmatch (42%N :: suf) name = ends_with suf name.
Proof.
  intros H. induction name as [|c name IH].
  - rewrite fnmatch_star_nil, fnmatch_literal by assumption. reflexivity.
  - rewrite fnmatch_star_cons, fnmatch_literal, IH by assumption.
    reflexivity.
Qed.

Lemma ends_with_spec (suf s : str) :
  ends_with suf s = true <-> exists pre, s = pre ++ suf.
Proof.
  induction s as [|c s IH]; cbn [ends_with]; rewrite orb_true_iff, str_eqb_eq.
  - split.
    + intros [<- | ?]; [now exists [] | discriminate].
    + intros [pre H]. left. symmetry in H.
      now apply app_eq_nil in H as [_ ->].
  - rewrite IH. split.
    + intros [<- | [pre ->]]; [now exists [] | now exists (c :: pre)].
    + intros [[|a pre] H]; [now left|].
      right. exists pre. now injection H.
Qed.

Lemma yml_glob (name : str) :
  fnmatch (lit "*.yml") name = ends_with (lit ".yml") name.
Proof. now apply (fnmatch_star_literal (lit ".yml")). Qed.

Lemma yaml_glob (name : str) :
  fnmatch (lit "*.yaml") name = ends_with (lit ".yaml") name.
Proof. now apply (fnmatch_star_literal (lit ".yaml")). Qed.

(** No name has both extensions. *)
Lemma yml_not_yaml (name : str) :
  ends_with (lit ".yml") name = true -> ends_with (lit ".yaml") name = false.
Proof.
  intros [p1 H1]%ends_with_spec.
  destruct (ends_with (lit ".yaml") name) eqn:E; [|reflexivity].
  apply ends_with_spec in E as [p2 H2]. exfalso.
  rewrite H1 in H2. apply (f_equal (@rev char)) in H2.
  rewrite !rev_app_distr in H2.
  change (rev (lit ".yml")) with ([108; 109; 121; 46]%N : str) in H2.
  change (rev (lit ".yaml")) with ([108; 109; 97; 121; 46]%N : str) in H2.
  discriminate H2.
Qed.

Lemma filter_either_perm {A : Type} (f g : A -> bool) (l : list A) :
  (forall x, f x = true -> g x = false) ->
  Permutation (filter f l ++ filter g l) (filter (fun x => f x || g x) l).
Proof.
  intros D. induction l as [|a l IH]; [reflexivity|]. cbn [filter].
  destruct (f a) eqn:Ef.
  - rewrite (D a Ef). cbn. now constructor.
  - destruct (g a); cbn; [|assumption].
    rewrite <- Permutation_middle. now constructor.
Qed.

Section YamlFiles.

Variable fs : FileSystem.
Variable d : Path.

Lemma yaml_files_eq :
  yaml_files fs d = sorted (map (child d) (globbed_names fs d)).
Proof. unfold yaml_files, glob, globbed_names. now rewrite map_app. Qed.

Lemma globbed_names_perm :
  Permutation (globbed_names fs d) (filter has_yaml_ext (fs_scandir fs d)).
Proof.
  unfold globbed_names, has_yaml_ext.
  rewrite (filter_ext _ _ yml_glob), (filter_ext _ _ yaml_glob).
  apply filter_either_perm, yml_not_yaml.
Qed.

Lemma map_name_child (l : list str) : map path_name (map (child d) l) = l.
Proof.
  rewrite map_map. rewrite <- (map_id l) at 2.
  apply map_ext. intros n. apply path_name_child.
Qed.

(** The names of the listed files are the entries with a YAML
    extension. *)
Lemma yaml_files_names :
  Permutation (map path_name (yaml_files fs d))
              (filter has_yaml_ext (fs_scandir fs d)).
Proof.
  rewrite yaml_files_eq, (Permutation_map path_name (sorted_perm _)).
  rewrite map_name_child. apply globbed_names_perm.
Qed.

Lemma yaml_files_len : len (yaml_files fs d) = yaml_count fs d.
Proof.
  unfold len, yaml_count, len. f_equal.
  rewrite <- (Permutation_length yaml_files_names). now rewrite length_map.
Qed.

Lemma yaml_files_children :
  Forall (fun p => exists n, p = child d n) (yaml_files fs d).
Proof.
  rewrite yaml_files_eq.
  apply (Permutation_Forall (Permutation_sym (sorted_perm _))).
  rewrite Forall_map. apply Forall_forall. intros n _. now exists n.
Qed.

(** The listed files are in the order of their names. *)
Lemma yaml_files_sorted :
  StronglySorted name_le (map path_name (yaml_files fs d)).
Proof.
  apply (sorted_children_names d); [apply yaml_files_children|].
  apply sorted_sorted.
Qed.

End YamlFiles.

(** ** Slices *)

Lemma len_nonneg {A : Type} (l : list A) : 0 <= len l.
Proof. unfold len. lia. Qed.

Lemma slice_to_nonneg {A : Type} (l : list A) (k : Z) :
  0 <= k -> slice_to l k = firstn (Z.to_nat k) l.
Proof. intros H. unfold slice_to. now destruct (Z.ltb_spec k 0); [lia|]. Qed.

Lemma slice_to_all {A : Type} (l : list A) (k : Z) :
  len l <= k -> slice_to l k = l.
Proof.
  intros H. pose proof (len_nonneg l). rewrite slice_to_nonneg by lia.
  apply firstn_all2. unfold len in H. lia.
Qed.

(** ** str.format on text and named fields *)

Lemma format_go_text (kw : list (str * str)) (l rest : str) :
  brace_free l = true ->
  format_go kw InText (l ++ rest)
  = option_map (app l) (format_go kw InText rest).
Proof.
  induction l as [|c l IH]; intros H.
  - cbn [app]. now destruct (format_go kw InText rest).
  - cbn [brace_free forallb] in H. apply andb_prop in H as [Hc Hl].
    apply andb_prop in Hc as [Hl' Hr]. apply negb_true_iff in Hl', Hr.
    cbn [app format_go]. rewrite Hl', Hr, (IH Hl).
    now destruct (format_go kw InText rest).
Qed.

Lemma format_go_in_field (kw : list (str * str)) (acc name rest : str) :
  field_name_ok name = true ->
  format_go kw (InField acc) (name ++ rbrace :: rest)
  = match lookup_kw (acc ++ name) kw with
    | None => None
    | Some v => option_map (app v) (format_go kw InText rest)
    end.
Proof.
  revert acc. induction name as [|c name IH]; intros acc H.
  - cbn [app format_go]. rewrite N.eqb_refl. now rewrite app_nil_r.
  - cbn [field_name_ok forallb] in H. apply andb_prop in H as [Hc Hn].
    apply andb_prop in Hc as [Hr Hs]. apply negb_true_iff in Hr, Hs.
    cbn [app format_go]. rewrite Hr, Hs, (IH _ Hn).
    now rewrite <- app_assoc.
Qed.

(** A named field is replaced by the value of its keyword argument, and
    the value is not read again. *)
Lemma format_go_field (kw : list (str * str)) (name rest : str) :
  name <> [] -> field_name_ok name = true ->
  format_go kw InText ((lbrace :: name ++ [rbrace]) ++ rest)
  = match lookup_kw name kw with
    | None => None
    | Some v => option_map (app v) (format_go kw InText rest)
    end.
Proof.
  destruct name as [|c name]; [congruence|]. intros _ H.
  cbn [field_name_ok forallb] in H. apply andb_prop in H as [Hc Hn].
  apply andb_prop in Hc as [Hr Hs]. apply negb_true_iff in Hr, Hs.
  assert (Hl : (c =? lbrace)%N = false).
  { unfold field_special in Hs. now repeat apply orb_false_elim in Hs as [Hs _]. }
  cbn [app]. rewrite <- app_assoc. cbn [app format_go].
  rewrite N.eqb_refl, Hl, Hr, Hs. now rewrite (format_go_in_field kw [c]).
Qed.

Lemma template_split :
  PROMPT_TEMPLATE
  = template_pre ++ lit "{markdown_context}" ++ template_mid
    ++ lit "{yaml_context}" ++ template_post.
Proof. vm_compute. reflexivity. Qed.

Lemma format_two_fields (kw : list (str * str))
    (pre mid post name1 name2 v1 v2 : str) :
  brace_free pre = true -> brace_free mid = true -> brace_free post = true ->
  name1 <> [] -> field_name_ok name1 = true ->
  name2 <> [] -> field_name_ok name2 = true ->
  lookup_kw name1 kw = Some v1 -> lookup_kw name2 kw = Some v2 ->
  format (pre ++ (lbrace :: name1 ++ [rbrace]) ++ mid
          ++ (lbrace :: name2 ++ [rbrace]) ++ post) kw
  = Some (pre ++ v1 ++ mid ++ v2 ++ post).
Proof.
  intros Hpre Hmid Hpost N1 F1 N2 F2 L1 L2. unfold format.
  rewrite (format_go_text _ _ _ Hpre).
  rewrite (format_go_field _ _ _ N1 F1), L1.
  rewrite (format_go_text _ _ _ Hmid).
  rewrite (format_go_field _ _ _ N2 F2), L2.
  rewrite <- (app_nil_r post) at 1.
  rewrite (format_go_text _ _ _ Hpost). cbn [format_go option_map].
  now rewrite app_nil_r.
Qed.

(** ** What [strip] keeps *)

Lemma lstrip_app_nonspace (u v : str) (c : char) :
  isspace c = false -> lstrip (u ++ c :: v) = lstrip u ++ c :: v.
Proof.
  intros H. induction u as [|a u IH]; cbn [app lstrip].
  - now rewrite H.
  - destruct (isspace a); [exact IH | reflexivity].
Qed.

Lemma rstrip_app_nonspace (u v : str) (c : char) :
  isspace c = false -> rstrip (u ++ c :: v) = u ++ c :: rstrip v.
Proof.
  intros H. unfold rstrip.
  replace (rev (u ++ c :: v)) with (rev v ++ c :: rev u)
    by (rewrite rev_app_distr; cbn [rev]; now rewrite <- app_assoc).
  rewrite lstrip_app_nonspace by assumption.
  rewrite rev_app_distr. cbn [rev]. rewrite rev_involutive.
  now rewrite <- app_assoc.
Qed.

(** A string that starts with a character that is not whitespace keeps
    it. *)
Lemma strip_cons_nonspace (c : char) (s : str) :
  isspace c = false -> strip (c :: s) = c :: rstrip s.
Proof.
  intros H. unfold strip.
  change (c :: s) with ([] ++ c :: s).
  rewrite rstrip_app_nonspace by assumption. cbn [app lstrip]. now rewrite H.
Qed.

(** [strip] removes nothing from inside: a substring that starts and ends
    with characters that are not whitespace is still there. *)
Lemma contains_strip (a b : char) (m s : str) :
  isspace a = false -> isspace b = false ->
  contains (a :: m ++ [b]) s -> contains (a :: m ++ [b]) (strip s).
Proof.
  intros Ha Hb [pre [post ->]]. unfold strip.
  replace (pre ++ (a :: m ++ [b]) ++ post)
    with ((pre ++ a :: m) ++ b :: post)
    by (rewrite <- !app_assoc; cbn [app]; now rewrite <- app_assoc).
  rewrite rstrip_app_nonspace by assumption.
  rewrite <- app_assoc. cbn [app].
  rewrite lstrip_app_nonspace by assumption.
  exists (lstrip pre), (rstrip post).
  cbn [app]. now rewrite <- app_assoc.
Qed.

(** What [lstrip] removes is whitespace, and what it leaves does not start
    with any. *)
Lemma lstrip_split (s : str) :
  exists w,
    forallb isspace w = true /\ s = w ++ lstrip s
    /\ (lstrip s = [] \/ exists c v, lstrip s = c :: v /\ isspace c = false).
Proof.
  induction s as [|a s [w [Hw [Hs Hl]]]].
  - exists []. repeat split. now left.
  - cbn [lstrip]. destruct (isspace a) eqn:E.
    + exists (a :: w). cbn [forallb app]. rewrite E, Hw. repeat split.
      * now rewrite <- Hs.
      * exact Hl.
    + exists []. repeat split. right. now exists a, s.
Qed.

Lemma lstrip_idem (s : str) : lstrip (lstrip s) = lstrip s.
Proof.
  destruct (lstrip_split s) as [_ [_ [_ [-> | [c [v [-> H]]]]]]];
    [reflexivity|].
  now apply lstrip_nonspace.
Qed.

Lemma rstrip_idem (s : str) : rstrip (rstrip s) = rstrip s.
Proof. unfold rstrip. now rewrite rev_involutive, lstrip_idem. Qed.

(** The result of [strip] has no whitespace at either end. *)
Lemma strip_trimmed (s : str) :
  lstrip (strip s) = strip s /\ rstrip (strip s) = strip s.
Proof.
  unfold strip. split; [apply lstrip_idem|].
  pose proof (rstrip_idem s) as R. revert R.
  generalize (rstrip s). intros t R.
  destruct (lstrip_split t) as [w [_ [Ht [-> | [c [v [E H]]]]]]];
    [reflexivity|].
  rewrite E in *. rewrite Ht in R.
  rewrite rstrip_app_nonspace in R by assumption.
  apply app_inv_head in R. injection R as R.
  change (c :: v) with ([] ++ c :: v).
  rewrite rstrip_app_nonspace by assumption. cbn [app]. now rewrite R.
Qed.

Lemma contains_trans (x y z : str) :
  contains x y -> contains y z -> contains x z.
Proof.
  intros [a [b ->]] [c [d ->]]. exists (c ++ a), (b ++ d).
  now rewrite <- !app_assoc.
Qed.

Lemma join_in (sep chunk : str) (chunks : list str) :
  In chunk chunks -> contains chunk (join sep chunks).
Proof.
  induction chunks as [|x l IH]; [intros []|].
  destruct l as [|y l].
  - intros [-> | []]. exists [], []. cbn [join app]. now rewrite app_nil_r.
  - rewrite join_cons by discriminate. intros [-> | H].
    + now exists [], (sep ++ join sep (y :: l)).
    + destruct (IH H) as [a [b ->]]. exists (x ++ sep ++ a), b.
      now rewrite <- !app_assoc.
Qed.

Lemma Forall2_in_l {A B : Type} (R : A -> B -> Prop) (l : list A)
    (l' : list B) (x : A) :
  Forall2 R l l' -> In x l -> exists y, In y l' /\ R x y.
Proof.
  induction 1 as [|a b l l' Hab _ IH]; [intros []|].
  intros [<- | H].
  - exists b. split; [now left | assumption].
  - destruct (IH H) as [y [Hy Hxy]]. exists y. split; [now right | assumption].
Qed.

(** A header line, from its first dash to its last. *)
Lemma header_frame (inner : str) :
  lit "--- " ++ inner ++ lit " ---"
  = 45%N :: (lit "-- " ++ inner ++ lit " --") ++ [45%N].
Proof.
  change (lit "--- ") with (45%N :: lit "-- ").
  change (lit " ---") with (lit " --" ++ [45%N]).
  cbn [app]. now rewrite <- !app_assoc.
Qed.

Lemma missing_header_frame (name path : str) :
  lit "--- " ++ name ++ lit " (MISSING: " ++ path ++ lit ") ---"
  = 45%N :: (lit "-- " ++ name ++ lit " (MISSING: " ++ path ++ lit ") --")
    ++ [45%N].
Proof.
  change (lit "--- ") with (45%N :: lit "-- ").
  change (lit ") ---") with (lit ") --" ++ [45%N]).
  cbn [app]. now rewrite <- !app_assoc.
Qed.

(** A header that is in a chunk is in the joined and trimmed output. *)
Lemma header_in_output (header rest chunk : str) (chunks : list str) :
  (exists m, header = 45%N :: m ++ [45%N]) ->
  chunk = header ++ rest -> In chunk chunks ->
  contains header (strip (join nl chunks)).
Proof.
  intros [m ->] -> H. apply contains_strip; [reflexivity | reflexivity |].
  apply (contains_trans _ ((45%N :: m ++ [45%N]) ++ rest)).
  - now exists [], rest.
  - now apply join_in.
Qed.

(** * The claims *)

(** ** The prompt builder *)

(** C7. [build_prompt] is total and is a function of its two arguments: for
    every pair of context strings it returns, without an error, the template
    with the Markdown context in place of the first placeholder and the YAML
    context in place of the second. The template is three pieces of text
    without braces around the two placeholders, so each placeholder is
    replaced once, the three pieces are copied unchanged, and nothing inside
    the inserted contexts is read as a placeholder. *)
Theorem build_prompt_substitutes_both_placeholders :
  PROMPT_TEMPLATE
  = template_pre ++ lit "{markdown_context}" ++ template_mid
    ++ lit "{yaml_context}" ++ template_post
  /\ brace_free template_pre = true
  /\ brace_free template_mid = true
  /\ brace_free template_post = true
  /\ forall markdown_context yaml_context : str,
       build_prompt markdown_context yaml_context
       = Some (template_pre ++ markdown_context ++ template_mid
               ++ yaml_context ++ template_post).
Proof.
  split; [exact template_split|].
  assert (Hpre : brace_free template_pre = true) by (vm_compute; reflexivity).
  assert (Hmid : brace_free template_mid = true) by (vm_compute; reflexivity).
  assert (Hpost : brace_free template_post = true) by (vm_compute; reflexivity).
  repeat (split; [assumption|]).
  intros md yaml. unfold build_prompt.
  rewrite template_split.
  change (lit "{markdown_context}")
    with (lbrace :: lit "markdown_context" ++ [rbrace]).
  change (lit "{yaml_context}") with (lbrace :: lit "yaml_context" ++ [rbrace]).
  apply format_two_fields; try assumption;
    try (intros E; vm_compute in E; discriminate E);
    vm_compute; reflexivity.
Qed.

(** ** The Markdown aggregator *)

Lemma md_missing_chunk_contains (name : str) (p : Path) :
  contains (lit "MISSING") (md_missing_chunk name p)
  /\ contains (path_str p) (md_missing_chunk name p).
Proof.
  unfold md_missing_chunk, contains. split.
  - exists (lit "--- " ++ name ++ lit " (").
    exists (lit ": " ++ path_str p ++ lit ") ---" ++ nl).
    change (lit " (MISSING: ") with (lit " (" ++ lit "MISSING" ++ lit ": ").
    now rewrite <- !app_assoc.
  - exists (lit "--- " ++ name ++ lit " (MISSING: ").
    exists (lit ") ---" ++ nl). now rewrite <- !app_assoc.
Qed.

(** C3. A name of the list whose file is not there under the base directory
    gets a block that holds the literal text MISSING and the path of the
    file under the base directory. The missing file raises nothing: the
    chunks of the whole list are the chunks of the names before it, this
    block, and the chunks of the names after it, so the names after it are
    still processed, and the run fails only where one of the other names
    does. *)
Theorem missing_markdown_file_is_marked (fs : FileSystem) (data_dir : Path)
    (before after : list str) (name : str) :
  fs_exists fs (joinpath data_dir name) = false ->
  contains (lit "MISSING") (md_missing_chunk name (joinpath data_dir name))
  /\ contains (path_str (joinpath data_dir name))
       (md_missing_chunk name (joinpath data_dir name))
  /\ md_chunks fs data_dir (before ++ name :: after)
     = match md_chunks fs data_dir before, md_chunks fs data_dir after with
       | Some b, Some a =>
         Some (b ++ md_missing_chunk name (joinpath data_dir name) :: a)
       | _, _ => None
       end.
Proof.
  intros E. split; [apply md_missing_chunk_contains|].
  split; [apply md_missing_chunk_contains|].
  rewrite md_chunks_app, md_chunks_missing by assumption.
  destruct (md_chunks fs data_dir before); [|reflexivity].
  now destruct (md_chunks fs data_dir after).
Qed.

(** The end-to-end example: [skills.md] is missing between [goals.md], which
    is there, and two more missing files. *)
Lemma missing_markdown_file_is_marked_witness :
  fs_exists fs_goals (joinpath data_dir0 (lit "skills.md")) = false
  /\ md_chunks fs_goals data_dir0 DEFAULT_MD_FILES
     = Some [md_chunk (lit "goals.md") (lit "Goal: run 5k");
             md_missing_chunk (lit "skills.md")
               (parse_path (lit "data/skills.md"));
             md_missing_chunk (lit "injuries.md")
               (parse_path (lit "data/injuries.md"));
             md_missing_chunk (lit "availability.md")
               (parse_path (lit "data/availability.md"))].
Proof.
  split; [vm_compute; reflexivity|].
  etransitivity.
  - apply (missing_markdown_file_is_marked fs_goals data_dir0
             [lit "goals.md"] [lit "injuries.md"; lit "availability.md"]
             (lit "skills.md")).
    vm_compute. reflexivity.
  - vm_compute. reflexivity.
Defined.

(** The loop ends when, for every name, the check answers that the file is
    not there, or that it is there and the file can be read. *)
Lemma md_chunks_returns (fs : FileSystem) (data_dir : Path)
    (md_files : list str) :
  (forall name, In name md_files ->
     fs_exists fs (joinpath data_dir name) = false
     \/ (fs_exists fs (joinpath data_dir name) = true
         /\ exists text, fs_read_text fs (joinpath data_dir name) = Some text)) ->
  exists chunks, md_chunks fs data_dir md_files = Some chunks.
Proof.
  induction md_files as [|name rest IH]; intros H.
  - now exists [].
  - destruct IH as [cs Hcs]; [intros n Hn; apply H; now right|].
    destruct (H name (or_introl eq_refl)) as [E | [E [text R]]].
    + rewrite md_chunks_missing, Hcs by assumption. now eexists.
    + rewrite (md_chunks_present _ _ _ text), Hcs by assumption. now eexists.
Qed.

(** C5. The Markdown aggregator makes exactly one block for each name of the
    list, in the order of the list. Whenever the loop ends, its chunks pair
    off with the names: the chunk of a name whose file is not there is
    "--- name (MISSING: path) ---" and a newline, the chunk of a name whose
    file is there is "--- name ---", a newline, the text of the file and a
    newline; there are as many chunks as names; the output is the chunks
    joined and trimmed, and it contains the header of every name. The loop
    does end when, for every name, the existence check answers that the
    file is not there, or that it is there and the file can be read. *)
Theorem markdown_one_block_per_name (fs : FileSystem) (data_dir : Path)
    (md_files : list str) :
  (forall chunks,
     md_chunks fs data_dir md_files = Some chunks ->
     Forall2
       (fun name chunk =>
          (fs_exists fs (joinpath data_dir name) = false
           /\ chunk = lit "--- " ++ name ++ lit " (MISSING: "
                      ++ path_str (joinpath data_dir name)
                      ++ lit ") ---" ++ nl)
          \/ (fs_exists fs (joinpath data_dir name) = true
              /\ exists text,
                   fs_read_text fs (joinpath data_dir name) = Some text
                   /\ chunk = lit "--- " ++ name ++ lit " ---" ++ nl
                              ++ text ++ nl))
       md_files chunks
     /\ length chunks = length md_files
     /\ load_markdown_context fs data_dir md_files
        = Some (strip (join nl chunks))
     /\ forall name, In name md_files ->
          (fs_exists fs (joinpath data_dir name) = true ->
           contains (lit "--- " ++ name ++ lit " ---")
             (strip (join nl chunks)))
          /\ (fs_exists fs (joinpath data_dir name) = false ->
              contains (lit "--- " ++ name ++ lit " (MISSING: "
                        ++ path_str (joinpath data_dir name)
                        ++ lit ") ---")
                (strip (join nl chunks))))
  /\ ((forall name, In name md_files ->
         fs_exists fs (joinpath data_dir name) = false
         \/ (fs_exists fs (joinpath data_dir name) = true
             /\ exists text,
                  fs_read_text fs (joinpath data_dir name) = Some text)) ->
      exists chunks, md_chunks fs data_dir md_files = Some chunks).
Proof.
  split; [|apply md_chunks_returns].
  intros chunks H. pose proof (md_chunks_blocks _ _ _ _ H) as B.
  split; [exact B|]. split; [symmetry; exact (Forall2_length B)|]. split.
  { unfold load_markdown_context. now rewrite H. }
  intros name Hin.
  destruct (Forall2_in_l _ _ _ _ B Hin) as [chunk [Hc Hb]].
  split; intros E.
  - destruct Hb as [[E' _] | [_ [text [_ ->]]]]; [congruence|].
    apply (header_in_output _ (nl ++ text ++ nl) (md_chunk name text));
      [eexists; apply header_frame | | assumption].
    unfold md_chunk. now rewrite <- !app_assoc.
  - destruct Hb as [[_ ->] | [E' _]]; [|congruence].
    apply (header_in_output _ nl
             (md_missing_chunk name (joinpath data_dir name)));
      [eexists; apply missing_header_frame | | assumption].
    unfold md_missing_chunk. now rewrite <- !app_assoc.
Qed.

(** The end-to-end example: [goals.md] is there and the three other default
    files are not. The loop ends, with these four chunks. *)
Lemma markdown_one_block_per_name_witness :
  md_chunks fs_goals data_dir0 DEFAULT_MD_FILES
  = Some [lit "--- goals.md ---" ++ nl ++ lit "Goal: run 5k" ++ nl;
          lit "--- skills.md (MISSING: data/skills.md) ---" ++ nl;
          lit "--- injuries.md (MISSING: data/injuries.md) ---" ++ nl;
          lit "--- availability.md (MISSING: data/availability.md) ---" ++ nl]
  /\ (exists chunks,
        md_chunks fs_goals data_dir0 DEFAULT_MD_FILES = Some chunks)
  /\ length
       [lit "--- goals.md ---" ++ nl ++ lit "Goal: run 5k" ++ nl;
        lit "--- skills.md (MISSING: data/skills.md) ---" ++ nl;
        lit "--- injuries.md (MISSING: data/injuries.md) ---" ++ nl;
        lit "--- availability.md (MISSING: data/availability.md) ---" ++ nl]
     = length DEFAULT_MD_FILES.
Proof.
  assert (C : md_chunks fs_goals data_dir0 DEFAULT_MD_FILES
              = Some [lit "--- goals.md ---" ++ nl ++ lit "Goal: run 5k" ++ nl;
                      lit "--- skills.md (MISSING: data/skills.md) ---" ++ nl;
                      lit "--- injuries.md (MISSING: data/injuries.md) ---"
                      ++ nl;
                      lit "--- availability.md (MISSING: data/availability.md) ---"
                      ++ nl])
    by (vm_compute; reflexivity).
  assert (A : forall name, In name DEFAULT_MD_FILES ->
                fs_exists fs_goals (joinpath data_dir0 name) = false
                \/ (fs_exists fs_goals (joinpath data_dir0 name) = true
                    /\ exists text,
                         fs_read_text fs_goals (joinpath data_dir0 name)
                         = Some text)).
  { intros name [<- | [<- | [<- | [<- | []]]]];
      [right; split; [vm_compute; reflexivity|];
       exists (lit "Goal: run 5k"); vm_compute; reflexivity
      | left; vm_compute; reflexivity ..]. }
  split; [exact C|]. split.
  - exact (proj2 (markdown_one_block_per_name fs_goals data_dir0
                    DEFAULT_MD_FILES) A).
  - exact (proj1 (proj2 (proj1 (markdown_one_block_per_name fs_goals
                                  data_dir0 DEFAULT_MD_FILES) _ C))).
Defined.

(** ** The YAML aggregator: the guards *)

Lemma yaml_files_nil (fs : FileSystem) (d : Path) :
  yaml_count fs d = 0 <-> yaml_files fs d = [].
Proof.
  rewrite <- yaml_files_len. unfold len.
  destruct (yaml_files fs d); cbn [length]; split; (congruence || lia).
Qed.

(** Past the two guards, the output is the chunks joined and trimmed. *)
Lemma load_yaml_context_listed (fs : FileSystem) (d : Path)
    (max_files max_chars_per_file : Z) :
  fs_exists fs d = true -> fs_is_dir fs d = true -> yaml_count fs d >= 1 ->
  load_yaml_context fs d max_files max_chars_per_file
  = option_map (fun chunks => strip (join nl chunks))
      (yaml_chunks fs (yaml_files fs d) max_files max_chars_per_file).
Proof.
  intros E D N. unfold load_yaml_context. rewrite E, D. cbn [negb orb].
  destruct (yaml_files fs d) eqn:F.
  - apply yaml_files_nil in F. lia.
  - now destruct (yaml_chunks fs (p :: l) max_files max_chars_per_file).
Qed.

(** C6. When the YAML directory does not exist, the YAML aggregator returns
    the message "(No YAML folder found. Skipping.)"; when it exists, is a
    directory and has no entry with either YAML extension, the aggregator
    returns the message "(No YAML files found. Skipping.)". Both hold for
    every file-count cap and every character cap. *)
Theorem yaml_fixed_messages (fs : FileSystem) (yaml_dir : Path)
    (max_files max_chars_per_file : Z) :
  (fs_exists fs yaml_dir = false ->
   load_yaml_context fs yaml_dir max_files max_chars_per_file
   = Some (lit "(No YAML folder found. Skipping.)"))
  /\ (fs_exists fs yaml_dir = true -> fs_is_dir fs yaml_dir = true ->
      yaml_count fs yaml_dir = 0 ->
      load_yaml_context fs yaml_dir max_files max_chars_per_file
      = Some (lit "(No YAML files found. Skipping.)")).
Proof.
  split.
  - intros E. unfold load_yaml_context. rewrite E. reflexivity.
  - intros E D N. unfold load_yaml_context. rewrite E, D. cbn [negb orb].
    apply yaml_files_nil in N. rewrite N. reflexivity.
Qed.

(** Nothing on disk, and a directory that holds only [notes.txt]. *)
Lemma yaml_fixed_messages_witness :
  load_yaml_context fs_empty yaml_dir0 50 12000
  = Some (lit "(No YAML folder found. Skipping.)")
  /\ load_yaml_context fs_no_yaml yaml_dir0 50 12000
     = Some (lit "(No YAML files found. Skipping.)").
Proof.
  split.
  - refine (proj1 (yaml_fixed_messages fs_empty yaml_dir0 50 12000) _).
    vm_compute. reflexivity.
  - refine (proj2 (yaml_fixed_messages fs_no_yaml yaml_dir0 50 12000) _ _ _);
      vm_compute; reflexivity.
Defined.

(** C9. When the YAML directory path exists and is not a directory, the
    YAML aggregator returns the message "(No YAML folder found. Skipping.)",
    as it does for a path that does not exist; it does not fail. *)
Theorem yaml_path_not_a_directory (fs : FileSystem) (yaml_dir : Path)
    (max_files max_chars_per_file : Z) :
  fs_exists fs yaml_dir = true -> fs_is_dir fs yaml_dir = false ->
  load_yaml_context fs yaml_dir max_files max_chars_per_file
  = Some (lit "(No YAML folder found. Skipping.)").
Proof.
  intros E D. unfold load_yaml_context. rewrite E, D. reflexivity.
Qed.

(** [gym-data] is a regular file. *)
Lemma yaml_path_not_a_directory_witness :
  fs_exists fs_plain_file yaml_dir0 = true
  /\ fs_is_dir fs_plain_file yaml_dir0 = false
  /\ load_yaml_context fs_plain_file yaml_dir0 50 12000
     = Some (lit "(No YAML folder found. Skipping.)").
Proof.
  assert (E : fs_exists fs_plain_file yaml_dir0 = true)
    by (vm_compute; reflexivity).
  assert (D : fs_is_dir fs_plain_file yaml_dir0 = false)
    by (vm_compute; reflexivity).
  split; [exact E|]. split; [exact D|].
  exact (yaml_path_not_a_directory fs_plain_file yaml_dir0 50 12000 E D).
Defined.

(** ** The YAML aggregator: the blocks *)

Lemma yaml_summary_split (n : Z) : yaml_summary n = yaml_summary_text n ++ nl.
Proof.
  unfold yaml_summary, yaml_summary_text. now rewrite <- !app_assoc.
Qed.

(** The summary text starts with a dot and ends with a parenthesis. *)
Lemma yaml_summary_text_frame (n : Z) :
  exists m, yaml_summary_text n = (46%N :: m) ++ [41%N].
Proof.
  exists (lit ".. (" ++ str_of_int n ++ lit " more YAML files not included").
  unfold yaml_summary_text.
  change (lit "... (") with (46%N :: lit ".. (").
  change (lit " more YAML files not included)")
    with (lit " more YAML files not included" ++ [41%N]).
  cbn [app]. now rewrite <- !app_assoc.
Qed.

(** A file block starts with a dash, a summary line with a dot. *)
Lemma yaml_chunk_head (name text : str) :
  exists m, yaml_chunk name text = 45%N :: m.
Proof.
  unfold yaml_chunk. change (lit "--- ") with (45%N :: lit "-- ").
  cbn [app]. now eexists.
Qed.

Lemma yaml_chunk_not_summary (name text : str) (n : Z) :
  yaml_chunk name text <> yaml_summary n.
Proof.
  destruct (yaml_chunk_head name text) as [m ->].
  rewrite yaml_summary_split.
  destruct (yaml_summary_text_frame n) as [m' ->]. cbn [app]. congruence.
Qed.

(** C10. With [max_files] equal to 0 and a YAML directory of [N >= 1] YAML
    files, no file is read and no file block is made: the only chunk is the
    summary line for [N] files, and the output is that line alone,
    "... (N more YAML files not included)". *)
Theorem zero_max_files_only_summary (fs : FileSystem) (yaml_dir : Path)
    (max_chars_per_file : Z) :
  fs_exists fs yaml_dir = true -> fs_is_dir fs yaml_dir = true ->
  yaml_count fs yaml_dir >= 1 ->
  yaml_chunks fs (yaml_files fs yaml_dir) 0 max_chars_per_file
  = Some [yaml_summary (yaml_count fs yaml_dir)]
  /\ load_yaml_context fs yaml_dir 0 max_chars_per_file
     = Some (lit "... (" ++ str_of_int (yaml_count fs yaml_dir)
             ++ lit " more YAML files not included)").
Proof.
  intros E D N.
  assert (C : yaml_chunks fs (yaml_files fs yaml_dir) 0 max_chars_per_file
              = Some [yaml_summary (yaml_count fs yaml_dir)]).
  { unfold yaml_chunks. rewrite slice_to_nonneg by lia.
    cbn [Z.to_nat firstn yaml_loop]. rewrite yaml_files_len.
    destruct (Z.gtb_spec (yaml_count fs yaml_dir) 0) as [_|]; [|lia].
    now rewrite Z.sub_0_r. }
  split; [exact C|].
  rewrite load_yaml_context_listed, C by assumption. cbn [option_map join].
  rewrite yaml_summary_split, strip_app_nl.
  fold (yaml_summary_text (yaml_count fs yaml_dir)).
  destruct (yaml_summary_text_frame (yaml_count fs yaml_dir)) as [m ->].
  f_equal. now apply strip_framed.
Qed.

(** Three YAML files and no room for any of them. *)
Lemma zero_max_files_only_summary_witness :
  yaml_count fs_three yaml_dir0 = 3
  /\ load_yaml_context fs_three yaml_dir0 0 12000
     = Some (lit "... (" ++ str_of_int (yaml_count fs_three yaml_dir0)
             ++ lit " more YAML files not included)").
Proof.
  assert (E : fs_exists fs_three yaml_dir0 = true)
    by (vm_compute; reflexivity).
  assert (D : fs_is_dir fs_three yaml_dir0 = true)
    by (vm_compute; reflexivity).
  assert (N : yaml_count fs_three yaml_dir0 = 3)
    by (vm_compute; reflexivity).
  assert (N1 : yaml_count fs_three yaml_dir0 >= 1)
    by (rewrite N; lia).
  split; [exact N|].
  exact (proj2 (zero_max_files_only_summary fs_three yaml_dir0 12000 E D N1)).
Defined.

Section FileChunks.

Variable fs : FileSystem.
Variable max_chars_per_file : Z.

Lemma yaml_file_chunks_blocks (files : list Path) (texts : list str) :
  Forall2 (fun p text => fs_read_text fs p = Some text) files texts ->
  Forall2 (yaml_block_of fs max_chars_per_file) files
    (yaml_file_chunks max_chars_per_file files texts).
Proof.
  induction 1 as [|p text files texts R _ IH]; [constructor|].
  unfold yaml_file_chunks. cbn [combine map fst snd].
  constructor; [|exact IH]. exists text. now split.
Qed.

Lemma yaml_file_chunks_len (files : list Path) (texts : list str) :
  Forall2 (fun p text => fs_read_text fs p = Some text) files texts ->
  len (yaml_file_chunks max_chars_per_file files texts) = len files.
Proof.
  intros H. apply yaml_file_chunks_blocks, Forall2_length in H.
  unfold len. now rewrite H.
Qed.


Lemma yaml_file_chunks_no_summary (files : list Path) (texts : list str)
    (n : Z) :
  ~ In (yaml_summary n) (yaml_file_chunks max_chars_per_file files texts).
Proof.
  unfold yaml_file_chunks. rewrite in_map_iff. intros [pt [H _]].
  now apply yaml_chunk_not_summary in H.
Qed.

(** The chunks when the cap leaves no file out. *)
Lemma yaml_chunks_within (files : list Path) (texts : list str)
    (max_files : Z) :
  len files <= max_files ->
  Forall2 (fun p text => fs_read_text fs p = Some text) files texts ->
  yaml_chunks fs files max_files max_chars_per_file
  = Some (yaml_file_chunks max_chars_per_file files texts).
Proof.
  intros L R. unfold yaml_chunks. rewrite slice_to_all by assumption.
  rewrite (yaml_loop_blocks _ _ _ _ R). fold (yaml_file_chunks
    max_chars_per_file files texts).
  now destruct (Z.gtb_spec (len files) max_files); [lia|].
Qed.


End FileChunks.



(** C4. With a YAML directory of [N] YAML files, [1 <= N <= max_files], and
    every one of them readable, each of the [N] files gets exactly one
    block and nothing else is emitted. The chunks pair off with the listed
    files: the chunk of a file is "--- name ---", a newline, the text of
    the file (cut at the character cap, with the marker, when it is
    longer) and a newline. There are [N] chunks; the names of the files are
    the entries of the directory with a YAML extension, in the
    lexicographic order of the names; no chunk is a summary line
    "... (n more YAML files not included)". The output is the chunks joined
    and trimmed, and it contains the header "--- name ---" of every one of
    the files. *)
Theorem all_yaml_files_within_cap (fs : FileSystem) (yaml_dir : Path)
    (max_files max_chars_per_file : Z) (texts : list str) :
  fs_exists fs yaml_dir = true -> fs_is_dir fs yaml_dir = true ->
  1 <= yaml_count fs yaml_dir <= max_files ->
  Forall2 (fun p text => fs_read_text fs p = Some text)
    (yaml_files fs yaml_dir) texts ->
  let files := yaml_files fs yaml_dir in
  let chunks :=
    map (fun pt =>
           lit "--- " ++ path_name (fst pt) ++ lit " ---" ++ nl
           ++ (if len (snd pt) >? max_chars_per_file
               then slice_to (snd pt) max_chars_per_file
                    ++ nl ++ lit "... (truncated)" ++ nl
               else snd pt)
           ++ nl)
        (combine files texts) in
  yaml_chunks fs files max_files max_chars_per_file = Some chunks
  /\ load_yaml_context fs yaml_dir max_files max_chars_per_file
     = Some (strip (join nl chunks))
  /\ Forall2
       (fun p chunk =>
          exists text,
            fs_read_text fs p = Some text
            /\ chunk = lit "--- " ++ path_name p ++ lit " ---" ++ nl
                       ++ (if len text >? max_chars_per_file
                           then slice_to text max_chars_per_file
                                ++ nl ++ lit "... (truncated)" ++ nl
                           else text)
                       ++ nl)
       files chunks
  /\ len chunks = yaml_count fs yaml_dir
  /\ (forall p, In p files ->
        contains (lit "--- " ++ path_name p ++ lit " ---")
          (strip (join nl chunks)))
  /\ Permutation (map path_name files)
       (filter has_yaml_ext (fs_scandir fs yaml_dir))
  /\ StronglySorted name_le (map path_name files)
  /\ forall n,
       ~ In (lit "... (" ++ str_of_int n
             ++ lit " more YAML files not included)" ++ nl) chunks.
Proof.
  intros E D N R files chunks.
  change chunks with (yaml_file_chunks max_chars_per_file files texts).
  clear chunks.
  pose proof (yaml_file_chunks_blocks fs max_chars_per_file _ _ R) as B.
  fold files in B.
  assert (C : yaml_chunks fs files max_files max_chars_per_file
              = Some (yaml_file_chunks max_chars_per_file files texts)).
  { apply yaml_chunks_within; [|exact R].
    unfold files. rewrite yaml_files_len. lia. }
  split; [exact C|]. split.
  { rewrite load_yaml_context_listed by (assumption || lia).
    fold files. now rewrite C. }
  split; [exact B|]. split.
  { rewrite (yaml_file_chunks_len fs) by exact R. apply yaml_files_len. }
  split.
  { intros p Hin. destruct (Forall2_in_l _ _ _ _ B Hin)
      as [chunk [Hc [text [_ Hb]]]].
    apply (header_in_output _
             (nl ++ truncate max_chars_per_file text ++ nl) chunk);
      [eexists; apply header_frame | | assumption].
    rewrite Hb. unfold yaml_chunk. now rewrite <- !app_assoc. }
  split; [apply yaml_files_names|]. split; [apply yaml_files_sorted|].
  intros n. apply (yaml_file_chunks_no_summary max_chars_per_file files texts n).
Qed.

(** Three YAML files, listed by the system as [c.yml], [a.yml], [b.yaml],
    and room for fifty: three blocks, in the order of the names, and no
    summary line. *)
Lemma all_yaml_files_within_cap_witness :
  yaml_count fs_three yaml_dir0 = 3
  /\ map path_name (yaml_files fs_three yaml_dir0)
     = [lit "a.yml"; lit "b.yaml"; lit "c.yml"]
  /\ load_yaml_context fs_three yaml_dir0 50 12000
     = Some (join nl
               [lit "--- a.yml ---"; lit "abc"; [];
                lit "--- b.yaml ---"; lit "B"; [];
                lit "--- c.yml ---"; lit "C"])
  /\ yaml_chunks fs_three (yaml_files fs_three yaml_dir0) 50 12000
     = Some (map (fun pt =>
                    lit "--- " ++ path_name (fst pt) ++ lit " ---" ++ nl
                    ++ (if len (snd pt) >? 12000
                        then slice_to (snd pt) 12000
                             ++ nl ++ lit "... (truncated)" ++ nl
                        else snd pt)
                    ++ nl)
               (combine (yaml_files fs_three yaml_dir0)
                  [lit "abc"; lit "B"; lit "C"])).
Proof.
  assert (E : fs_exists fs_three yaml_dir0 = true)
    by (vm_compute; reflexivity).
  assert (D : fs_is_dir fs_three yaml_dir0 = true)
    by (vm_compute; reflexivity).
  assert (N : yaml_count fs_three yaml_dir0 = 3)
    by (vm_compute; reflexivity).
  assert (N1 : 1 <= yaml_count fs_three yaml_dir0 <= 50)
    by (rewrite N; lia).
  assert (R : Forall2 (fun p text => fs_read_text fs_three p = Some text)
                (yaml_files fs_three yaml_dir0) [lit "abc"; lit "B"; lit "C"])
    by (vm_compute; repeat constructor).
  split; [exact N|]. split; [vm_compute; reflexivity|].
  split; [vm_compute; reflexivity|].
  exact (proj1 (all_yaml_files_within_cap fs_three yaml_dir0 50 12000
                  [lit "abc"; lit "B"; lit "C"] E D N1 R)).
Defined.




(** ** The YAML aggregator: truncation *)

(** C2. The cap counts characters, [0 <= max_chars_per_file]; [main] always
    leaves it at 12000. The block of a readable YAML file is its header
    line, the kept text and a newline. A text longer than the cap is kept
    as exactly its first [max_chars_per_file] characters followed by the
    marker, a newline, "... (truncated)" and a newline; a text of at most
    [max_chars_per_file] characters is kept unchanged. *)
Theorem yaml_text_truncated_at_cap (fs : FileSystem)
    (max_chars_per_file : Z) (p : Path) (text : str) (rest : list Path) :
  0 <= max_chars_per_file ->
  fs_read_text fs p = Some text ->
  yaml_loop fs max_chars_per_file (p :: rest) []
  = option_map
      (cons (lit "--- " ++ path_name p ++ lit " ---" ++ nl
             ++ truncate max_chars_per_file text ++ nl))
      (yaml_loop fs max_chars_per_file rest [])
  /\ (len text > max_chars_per_file ->
      truncate max_chars_per_file text
      = firstn (Z.to_nat max_chars_per_file) text
        ++ nl ++ lit "... (truncated)" ++ nl
      /\ len (firstn (Z.to_nat max_chars_per_file) text)
         = max_chars_per_file)
  /\ (len text <= max_chars_per_file ->
      truncate max_chars_per_file text = text)
  /\ truncation_stated max_chars_per_file text.
Proof.
  intros C R.
  assert (Long : len text > max_chars_per_file ->
                 truncate max_chars_per_file text
                 = firstn (Z.to_nat max_chars_per_file) text
                   ++ nl ++ lit "... (truncated)" ++ nl
                 /\ len (firstn (Z.to_nat max_chars_per_file) text)
                    = max_chars_per_file).
  { intros L. unfold truncate.
    destruct (Z.gtb_spec (len text) max_chars_per_file) as [_|]; [|lia].
    rewrite slice_to_nonneg by assumption. split; [reflexivity|].
    unfold len in *. rewrite length_firstn. lia. }
  assert (Short : len text <= max_chars_per_file ->
                  truncate max_chars_per_file text = text).
  { intros L. unfold truncate.
    now destruct (Z.gtb_spec (len text) max_chars_per_file); [lia|]. }
  split; [exact (yaml_loop_cons fs max_chars_per_file p text rest R)|].
  split; [exact Long|]. split; [exact Short|].
  split; [|exact Short].
  intros L. destruct (Long L) as [T K].
  exists (firstn (Z.to_nat max_chars_per_file) text).
  exists (skipn (Z.to_nat max_chars_per_file) text).
  split; [symmetry; apply firstn_skipn|]. now split.
Qed.

(** [a.yml] holds "abc"; with a cap of two characters it is kept as "ab"
    and the marker. *)
Lemma yaml_text_truncated_at_cap_witness :
  truncate 2 (lit "abc")
  = firstn (Z.to_nat 2) (lit "abc") ++ nl ++ lit "... (truncated)" ++ nl
  /\ len (firstn (Z.to_nat 2) (lit "abc")) = 2.
Proof.
  assert (C : 0 <= 2) by lia.
  assert (R : fs_read_text fs_three (child yaml_dir0 (lit "a.yml"))
              = Some (lit "abc")) by (vm_compute; reflexivity).
  assert (L : len (lit "abc") > 2) by (vm_compute; reflexivity).
  exact (proj1 (proj2 (yaml_text_truncated_at_cap fs_three 2
                         (child yaml_dir0 (lit "a.yml")) (lit "abc") [] C R))
           L).
Defined.

(** ** Joining and trimming *)

Lemma block_text_nl (t : str) : block_text (t ++ nl) = t.
Proof. apply removelast_last. Qed.

(** Chunks that each end with a newline, joined with a newline and
    trimmed, are their texts joined with a blank line and trimmed. *)
Lemma chunks_joined_trimmed (chunks : list str) :
  Forall ends_nl chunks ->
  strip (join nl chunks) = joined_trimmed (map block_text chunks).
Proof.
  intros H. unfold joined_trimmed.
  destruct chunks as [|c chunks]; [reflexivity|].
  assert (M : c :: chunks
              = map (fun t => t ++ nl) (map block_text (c :: chunks))).
  { induction H as [|x l [t ->] _ IH]; [reflexivity|].
    cbn [map]. rewrite block_text_nl. now f_equal. }
  rewrite M at 1. rewrite join_nl_blank_line by discriminate.
  apply strip_app_nl.
Qed.

Lemma md_chunks_end_nl (fs : FileSystem) (data_dir : Path)
    (md_files chunks : list str) :
  md_chunks fs data_dir md_files = Some chunks -> Forall ends_nl chunks.
Proof.
  intros H. apply md_chunks_blocks in H.
  induction H as [|name c names cs B _ IH]; constructor; [|exact IH].
  destruct B as [[_ ->] | [_ [text [_ ->]]]].
  - exists (lit "--- " ++ name ++ lit " (MISSING: "
            ++ path_str (joinpath data_dir name) ++ lit ") ---").
    unfold md_missing_chunk. now rewrite <- !app_assoc.
  - exists (lit "--- " ++ name ++ lit " ---" ++ nl ++ text).
    unfold md_chunk. now rewrite <- !app_assoc.
Qed.

Lemma yaml_loop_end_nl (fs : FileSystem) (max_chars_per_file : Z)
    (files : list Path) (chunks : list str) :
  yaml_loop fs max_chars_per_file files [] = Some chunks ->
  Forall ends_nl chunks.
Proof.
  revert chunks. induction files as [|p files IH]; intros chunks.
  - intros [= <-]. constructor.
  - destruct (fs_read_text fs p) as [text|] eqn:R.
    + rewrite (yaml_loop_cons _ _ _ text) by assumption.
      destruct (yaml_loop fs max_chars_per_file files []) as [cs|];
        [|discriminate].
      intros [= <-]. constructor; [|now apply IH].
      exists (lit "--- " ++ path_name p ++ lit " ---" ++ nl
              ++ truncate max_chars_per_file text).
      unfold yaml_chunk. now rewrite <- !app_assoc.
    + cbn [yaml_loop]. unfold read_text_file. rewrite R. discriminate.
Qed.

Lemma yaml_chunks_end_nl (fs : FileSystem) (files : list Path)
    (max_files max_chars_per_file : Z) (chunks : list str) :
  yaml_chunks fs files max_files max_chars_per_file = Some chunks ->
  Forall ends_nl chunks.
Proof.
  unfold yaml_chunks.
  destruct (yaml_loop fs max_chars_per_file (slice_to files max_files) [])
    as [cs|] eqn:L; [|discriminate].
  apply yaml_loop_end_nl in L.
  destruct (len files >? max_files); intros [= <-]; [|exact L].
  apply Forall_app. split; [exact L|]. constructor; [|constructor].
  exists (yaml_summary_text (len files - max_files)).
  apply yaml_summary_split.
Qed.

(** C8, outside the two guards of the YAML aggregator. The output of the
    Markdown aggregator, for every input, and the output of the YAML
    aggregator, for a YAML directory that exists, is a directory and has a
    YAML file, is the sequence of blocks joined with a blank line between
    consecutive blocks and trimmed of whitespace at both ends; a block is a
    chunk of the code without the newline that ends it. The aggregator
    fails only where building its chunks fails. *)
Theorem aggregator_output_is_joined_blocks (fs : FileSystem)
    (data_dir : Path) (md_files : list str) (yaml_dir : Path)
    (max_files max_chars_per_file : Z) :
  load_markdown_context fs data_dir md_files
  = option_map (fun chunks => joined_trimmed (map block_text chunks))
      (md_chunks fs data_dir md_files)
  /\ (fs_exists fs yaml_dir = true -> fs_is_dir fs yaml_dir = true ->
      yaml_count fs yaml_dir >= 1 ->
      load_yaml_context fs yaml_dir max_files max_chars_per_file
      = option_map (fun chunks => joined_trimmed (map block_text chunks))
          (yaml_chunks fs (yaml_files fs yaml_dir) max_files
             max_chars_per_file)).
Proof.
  split.
  - unfold load_markdown_context.
    destruct (md_chunks fs data_dir md_files) as [chunks|] eqn:C;
      [|reflexivity].
    cbn [option_map]. f_equal.
    exact (chunks_joined_trimmed _ (md_chunks_end_nl _ _ _ _ C)).
  - intros E D N. rewrite load_yaml_context_listed by assumption.
    destruct (yaml_chunks fs (yaml_files fs yaml_dir) max_files
                max_chars_per_file) as [chunks|] eqn:C; [|reflexivity].
    cbn [option_map]. f_equal.
    exact (chunks_joined_trimmed _ (yaml_chunks_end_nl _ _ _ _ _ C)).
Qed.

(** The end-to-end Markdown directory, and three YAML files with room for
    two. *)
Lemma aggregator_output_is_joined_blocks_witness :
  yaml_count fs_three yaml_dir0 = 3
  /\ load_yaml_context fs_three yaml_dir0 2 12000
     = option_map (fun chunks => joined_trimmed (map block_text chunks))
         (yaml_chunks fs_three (yaml_files fs_three yaml_dir0) 2 12000).
Proof.
  assert (E : fs_exists fs_three yaml_dir0 = true)
    by (vm_compute; reflexivity).
  assert (D : fs_is_dir fs_three yaml_dir0 = true)
    by (vm_compute; reflexivity).
  assert (N : yaml_count fs_three yaml_dir0 = 3)
    by (vm_compute; reflexivity).
  assert (N1 : yaml_count fs_three yaml_dir0 >= 1) by (rewrite N; lia).
  split; [exact N|].
  exact (proj2 (aggregator_output_is_joined_blocks fs_three data_dir0
                  DEFAULT_MD_FILES yaml_dir0 2 12000) E D N1).
Defined.

(** C8 as the specification states it, for every input, fails where a guard
    of the YAML aggregator returns: with no YAML directory there is no
    block at all, and the output is the fixed message, not the empty
    string that joining no blocks gives. *)
Lemma yaml_guard_output_counterexample :
  load_yaml_context fs_empty yaml_dir0 50 12000
  = Some (lit "(No YAML folder found. Skipping.)")
  /\ yaml_chunks fs_empty (yaml_files fs_empty yaml_dir0) 50 12000 = Some []
  /\ joined_trimmed (map block_text []) = []
  /\ ~ yaml_joined_stated fs_empty yaml_dir0 50 12000.
Proof.
  split; [vm_compute; reflexivity|]. split; [vm_compute; reflexivity|].
  split; [reflexivity|].
  unfold yaml_joined_stated. intros H. vm_compute in H. discriminate H.
Qed.

(** ** The end-to-end example

    With [data/goals.md] holding "Goal: run 5k", the three other Markdown
    files missing and no YAML directory, the Markdown context has one
    present block and three MISSING blocks, and the YAML context is the
    message of the first guard. *)
Example end_to_end_contexts :
  load_markdown_context fs_goals data_dir0 DEFAULT_MD_FILES
  = Some (join nl
            [lit "--- goals.md ---";
             lit "Goal: run 5k";
             [];
             lit "--- skills.md (MISSING: data/skills.md) ---";
             [];
             lit "--- injuries.md (MISSING: data/injuries.md) ---";
             [];
             lit "--- availability.md (MISSING: data/availability.md) ---"])
  /\ load_yaml_context fs_goals yaml_dir0 50 12000
     = Some (lit "(No YAML folder found. Skipping.)").
Proof. split; vm_compute; reflexivity. Qed.

(** Three YAML files and [--max-yaml-files 2]. *)
Example capped_output_text :
  load_yaml_context fs_three yaml_dir0 2 12000
  = Some (join nl
            [lit "--- a.yml ---";
             lit "abc";
             [];
             lit "--- b.yaml ---";
             lit "B";
             [];
             lit "... (1 more YAML files not included)"]).
Proof. vm_compute. reflexivity. Qed.

(** * Further properties of the code *)

(** ** The Markdown aggregator: what reaches the output *)

(** Trimming the joined chunks never removes a header: when the Markdown
    aggregator returns, its output holds, for every name of the list, the
    header line of the name when its file is there, and the header line
    with the MISSING marker and the path when it is not. This holds for the
    last name too, whose chunk the trimming cuts. *)
Theorem markdown_headers_reach_output (fs : FileSystem) (data_dir : Path)
    (md_files : list str) (out name : str) :
  load_markdown_context fs data_dir md_files = Some out ->
  In name md_files ->
  (fs_exists fs (joinpath data_dir name) = true ->
   contains (lit "--- " ++ name ++ lit " ---") out)
  /\ (fs_exists fs (joinpath data_dir name) = false ->
      contains (lit "--- " ++ name ++ lit " (MISSING: "
                ++ path_str (joinpath data_dir name) ++ lit ") ---") out).
Proof.
  unfold load_markdown_context.
  destruct (md_chunks fs data_dir md_files) as [chunks|] eqn:C;
    [|discriminate].
  intros [= <-] Hin. apply md_chunks_blocks in C.
  destruct (Forall2_in_l _ _ _ _ C Hin) as [chunk [Hc B]].
  split; intros E.
  - destruct B as [[E' _] | [_ [text [_ ->]]]]; [congruence|].
    apply (header_in_output _ (nl ++ text ++ nl) (md_chunk name text));
      [eexists; apply header_frame | | assumption].
    unfold md_chunk. now rewrite <- !app_assoc.
  - destruct B as [[_ ->] | [E' _]]; [|congruence].
    apply (header_in_output _ nl
             (md_missing_chunk name (joinpath data_dir name)));
      [eexists; apply missing_header_frame | | assumption].
    unfold md_missing_chunk. now rewrite <- !app_assoc.
Qed.

(** The last of the four default names, which is missing in the end-to-end
    example. *)
Lemma markdown_headers_reach_output_witness :
  contains (lit "--- availability.md (MISSING: "
            ++ path_str (joinpath data_dir0 (lit "availability.md"))
            ++ lit ") ---")
    (strip (join nl
       [md_chunk (lit "goals.md") (lit "Goal: run 5k");
        md_missing_chunk (lit "skills.md")
          (joinpath data_dir0 (lit "skills.md"));
        md_missing_chunk (lit "injuries.md")
          (joinpath data_dir0 (lit "injuries.md"));
        md_missing_chunk (lit "availability.md")
          (joinpath data_dir0 (lit "availability.md"))])).
Proof.
  assert (L : load_markdown_context fs_goals data_dir0 DEFAULT_MD_FILES
              = Some (strip (join nl
                 [md_chunk (lit "goals.md") (lit "Goal: run 5k");
                  md_missing_chunk (lit "skills.md")
                    (joinpath data_dir0 (lit "skills.md"));
                  md_missing_chunk (lit "injuries.md")
                    (joinpath data_dir0 (lit "injuries.md"));
                  md_missing_chunk (lit "availability.md")
                    (joinpath data_dir0 (lit "availability.md"))])))
    by (vm_compute; reflexivity).
  assert (I : In (lit "availability.md") DEFAULT_MD_FILES)
    by (right; right; right; left; reflexivity).
  assert (E : fs_exists fs_goals (joinpath data_dir0 (lit "availability.md"))
              = false) by (vm_compute; reflexivity).
  exact (proj2 (markdown_headers_reach_output fs_goals data_dir0
                  DEFAULT_MD_FILES _ (lit "availability.md") L I) E).
Defined.

(** The output of both aggregators has no whitespace at either end,
    whatever the files hold: neither [lstrip] nor [rstrip] changes it. *)
Theorem aggregator_outputs_are_trimmed (fs : FileSystem)
    (data_dir : Path) (md_files : list str) (yaml_dir : Path)
    (max_files max_chars_per_file : Z) (out : str) :
  load_markdown_context fs data_dir md_files = Some out
  \/ load_yaml_context fs yaml_dir max_files max_chars_per_file = Some out ->
  lstrip out = out /\ rstrip out = out.
Proof.
  intros [H | H].
  - unfold load_markdown_context in H.
    destruct (md_chunks fs data_dir md_files); [|discriminate].
    injection H as <-. apply strip_trimmed.
  - unfold load_yaml_context in H.
    destruct (negb (fs_exists fs yaml_dir) || negb (fs_is_dir fs yaml_dir)).
    { injection H as <-. split; vm_compute; reflexivity. }
    destruct (yaml_files fs yaml_dir).
    { injection H as <-. split; vm_compute; reflexivity. }
    destruct (yaml_chunks fs (p :: l) max_files max_chars_per_file);
      [|discriminate].
    injection H as <-. apply strip_trimmed.
Qed.

(** [c.yml] could end in blank lines: the output still ends with the last
    character of its text. *)
Lemma aggregator_outputs_are_trimmed_witness :
  rstrip (strip (join nl
            (yaml_file_chunks 12000 (yaml_files fs_three yaml_dir0)
               [lit "abc"; lit "B"; lit "C"])))
  = strip (join nl
            (yaml_file_chunks 12000 (yaml_files fs_three yaml_dir0)
               [lit "abc"; lit "B"; lit "C"])).
Proof.
  assert (L : load_yaml_context fs_three yaml_dir0 50 12000
              = Some (strip (join nl
                  (yaml_file_chunks 12000 (yaml_files fs_three yaml_dir0)
                     [lit "abc"; lit "B"; lit "C"]))))
    by (vm_compute; reflexivity).
  exact (proj2 (aggregator_outputs_are_trimmed fs_three data_dir0 []
                  yaml_dir0 50 12000 _ (or_intror L))).
Defined.

(** ** The YAML aggregator: failures and what reaches the output *)

(** When the loop ends, it has made the block of each file, in order. *)
Lemma yaml_loop_blocks_inv (fs : FileSystem) (max_chars_per_file : Z)
    (files : list Path) (chunks : list str) :
  yaml_loop fs max_chars_per_file files [] = Some chunks ->
  Forall2 (yaml_block_of fs max_chars_per_file) files chunks.
Proof.
  revert chunks. induction files as [|p files IH]; intros chunks.
  - intros [= <-]. constructor.
  - destruct (fs_read_text fs p) as [text|] eqn:R.
    + rewrite (yaml_loop_cons _ _ _ text) by assumption.
      destruct (yaml_loop fs max_chars_per_file files []) as [cs|];
        [|discriminate].
      intros [= <-]. constructor; [|now apply IH]. now exists text.
    + cbn [yaml_loop]. unfold read_text_file. rewrite R. discriminate.
Qed.

(** The loop fails exactly when a file of its list cannot be read. *)
Lemma yaml_loop_none (fs : FileSystem) (max_chars_per_file : Z)
    (files : list Path) :
  yaml_loop fs max_chars_per_file files [] = None
  <-> exists p, In p files /\ fs_read_text fs p = None.
Proof.
  induction files as [|p files IH].
  - split; [discriminate | intros [p [[] _]]].
  - destruct (fs_read_text fs p) as [text|] eqn:R.
    + rewrite (yaml_loop_cons _ _ _ text) by assumption. split.
      * destruct (yaml_loop fs max_chars_per_file files []);
          [discriminate|].
        intros _. destruct (proj1 IH eq_refl) as [q [Hq Hr]].
        exists q. split; [now right | assumption].
      * intros [q [[<- | Hq] Hr]]; [congruence|].
        rewrite (proj2 IH); [reflexivity|]. now exists q.
    + cbn [yaml_loop]. unfold read_text_file. rewrite R.
      split; [|reflexivity]. intros _. exists p. split; [now left|assumption].
Qed.

Lemma yaml_chunks_none (fs : FileSystem) (files : list Path)
    (max_files max_chars_per_file : Z) :
  yaml_chunks fs files max_files max_chars_per_file = None
  <-> yaml_loop fs max_chars_per_file (slice_to files max_files) [] = None.
Proof.
  unfold yaml_chunks.
  destruct (yaml_loop fs max_chars_per_file (slice_to files max_files) []);
    [|tauto].
  destruct (len files >? max_files); split; discriminate.
Qed.

Lemma in_firstn {A : Type} (n : nat) (l : list A) (x : A) :
  In x (firstn n l) -> In x l.
Proof.
  intros H. rewrite <- (firstn_skipn n l). apply in_or_app. now left.
Qed.

Lemma slice_to_incl {A : Type} (l : list A) (k : Z) (x : A) :
  In x (slice_to l k) -> In x l.
Proof. unfold slice_to. destruct (k <? 0); apply in_firstn. Qed.

(** Once the existence check and the directory check have both answered
    yes, reading is the only step of [load_yaml_context] that fails: the
    run then fails exactly when one of the files that the slice
    [yaml_files[:max_files]] keeps cannot be read (it is a directory named
    like a YAML file, or not readable). A file that the slice leaves out is
    never read, so it cannot fail the run. *)
Theorem load_yaml_context_fails_on_unreadable_kept_file (fs : FileSystem)
    (yaml_dir : Path) (max_files max_chars_per_file : Z) :
  fs_exists fs yaml_dir = true -> fs_is_dir fs yaml_dir = true ->
  (load_yaml_context fs yaml_dir max_files max_chars_per_file = None
   <-> exists p,
         In p (slice_to (yaml_files fs yaml_dir) max_files)
         /\ fs_read_text fs p = None).
Proof.
  intros E D. unfold load_yaml_context. rewrite E, D. cbn [negb orb].
  destruct (yaml_files fs yaml_dir) as [|q files] eqn:F.
  - split; [discriminate|]. intros [p [H _]].
    now apply slice_to_incl in H.
  - rewrite <- (yaml_loop_none fs max_chars_per_file).
    rewrite <- (yaml_chunks_none fs (q :: files) max_files
                  max_chars_per_file).
    destruct (yaml_chunks fs (q :: files) max_files max_chars_per_file).
    + split; discriminate.
    + split; reflexivity.
Qed.

(** With the directory there, the header line of every file that the slice
    keeps is in the output. *)
Theorem yaml_headers_reach_output (fs : FileSystem) (yaml_dir : Path)
    (max_files max_chars_per_file : Z) (out : str) (p : Path) :
  fs_exists fs yaml_dir = true -> fs_is_dir fs yaml_dir = true ->
  load_yaml_context fs yaml_dir max_files max_chars_per_file = Some out ->
  In p (slice_to (yaml_files fs yaml_dir) max_files) ->
  contains (lit "--- " ++ path_name p ++ lit " ---") out.
Proof.
  intros E D. unfold load_yaml_context. rewrite E, D. cbn [negb orb].
  destruct (yaml_files fs yaml_dir) as [|q files] eqn:F.
  { intros _ H. now apply slice_to_incl in H. }
  unfold yaml_chunks.
  destruct (yaml_loop fs max_chars_per_file
              (slice_to (q :: files) max_files) []) as [cs|] eqn:L;
    [|discriminate].
  intros H Hin. apply yaml_loop_blocks_inv in L.
  destruct (Forall2_in_l _ _ _ _ L Hin) as [chunk [Hc [text [_ B]]]].
  assert (Hc' : forall more, In chunk (cs ++ more))
    by (intros more; apply in_or_app; now left).
  assert (K : forall chunks, In chunk chunks ->
                contains (lit "--- " ++ path_name p ++ lit " ---")
                  (strip (join nl chunks))).
  { intros chunks. apply (header_in_output _
      (nl ++ truncate max_chars_per_file text ++ nl));
      [eexists; apply header_frame|].
    rewrite B. unfold yaml_chunk. now rewrite <- !app_assoc. }
  destruct (len (q :: files) >? max_files); injection H as <-;
    apply K; [apply Hc' | assumption].
Qed.

(** Room for two of three files: the header of [b.yaml], the second and
    last file kept, is in the output. *)
Lemma yaml_headers_reach_output_witness :
  contains (lit "--- "
            ++ path_name (child yaml_dir0 (lit "b.yaml")) ++ lit " ---")
    (strip (join nl
       (yaml_file_chunks 12000
          (firstn (Z.to_nat 2) (yaml_files fs_three yaml_dir0))
          [lit "abc"; lit "B"]
        ++ [yaml_summary 1]))).
Proof.
  assert (E : fs_exists fs_three yaml_dir0 = true)
    by (vm_compute; reflexivity).
  assert (D : fs_is_dir fs_three yaml_dir0 = true)
    by (vm_compute; reflexivity).
  assert (L : load_yaml_context fs_three yaml_dir0 2 12000
              = Some (strip (join nl
                 (yaml_file_chunks 12000
                    (firstn (Z.to_nat 2) (yaml_files fs_three yaml_dir0))
                    [lit "abc"; lit "B"]
                  ++ [yaml_summary 1]))))
    by (vm_compute; reflexivity).
  assert (I : In (child yaml_dir0 (lit "b.yaml"))
                (slice_to (yaml_files fs_three yaml_dir0) 2))
    by (vm_compute; right; left; reflexivity).
  exact (yaml_headers_reach_output fs_three yaml_dir0 2 12000 _ _ E D L I).
Defined.

(** [c.yml] cannot be read: the run fails with room for all three files,
    and does not with room for two, when [c.yml] is not read at all. *)
Lemma load_yaml_context_fails_on_unreadable_kept_file_witness :
  load_yaml_context fs_unreadable yaml_dir0 50 12000 = None
  /\ load_yaml_context fs_unreadable yaml_dir0 2 12000
     = load_yaml_context fs_three yaml_dir0 2 12000.
Proof.
  assert (E : fs_exists fs_unreadable yaml_dir0 = true)
    by (vm_compute; reflexivity).
  assert (D : fs_is_dir fs_unreadable yaml_dir0 = true)
    by (vm_compute; reflexivity).
  assert (I : In (child yaml_dir0 (lit "c.yml"))
                (slice_to (yaml_files fs_unreadable yaml_dir0) 50))
    by (vm_compute; right; right; left; reflexivity).
  assert (R : fs_read_text fs_unreadable (child yaml_dir0 (lit "c.yml"))
              = None) by (vm_compute; reflexivity).
  split; [|vm_compute; reflexivity].
  exact (proj2 (load_yaml_context_fails_on_unreadable_kept_file
                  fs_unreadable yaml_dir0 50 12000 E D)
           (ex_intro _ _ (conj I R))).
Defined.

(** The YAML context is never empty: it is one of the two messages, which
    start with a parenthesis, or it starts with the dash of a header line
    or the dot of the summary line. (The Markdown context of an empty list
    of names is the empty string.) *)
Theorem yaml_context_is_never_empty (fs : FileSystem) (yaml_dir : Path)
    (max_files max_chars_per_file : Z) (out : str) :
  load_yaml_context fs yaml_dir max_files max_chars_per_file = Some out ->
  exists c rest, out = c :: rest /\ (c = 40%N \/ c = 45%N \/ c = 46%N).
Proof.
  unfold load_yaml_context.
  destruct (negb (fs_exists fs yaml_dir) || negb (fs_is_dir fs yaml_dir)).
  { intros [= <-]. exists 40%N, (lit "No YAML folder found. Skipping.)").
    split; [vm_compute; reflexivity | left; reflexivity]. }
  destruct (yaml_files fs yaml_dir) as [|q files].
  { intros [= <-]. exists 40%N, (lit "No YAML files found. Skipping.)").
    split; [vm_compute; reflexivity | left; reflexivity]. }
  assert (K : forall (c : char) (m : str) chunks,
            c = 45%N \/ c = 46%N ->
            exists c' rest,
              strip (join nl ((c :: m) :: chunks)) = c' :: rest
              /\ (c' = 40%N \/ c' = 45%N \/ c' = 46%N)).
  { intros c m chunks Hc.
    assert (S : isspace c = false) by (destruct Hc as [-> | ->]; reflexivity).
    destruct chunks as [|x chunks].
    - cbn [join]. rewrite strip_cons_nonspace by assumption.
      exists c. eexists. split; [reflexivity | now right].
    - rewrite join_cons by discriminate. cbn [app].
      rewrite strip_cons_nonspace by assumption.
      exists c. eexists. split; [reflexivity | now right]. }
  unfold yaml_chunks.
  destruct (yaml_loop fs max_chars_per_file
              (slice_to (q :: files) max_files) []) as [cs|] eqn:L;
    [|discriminate].
  apply yaml_loop_blocks_inv in L.
  destruct (Z.gtb_spec (len (q :: files)) max_files) as [G | G];
    generalize (len (q :: files) - max_files); intros n [= <-].
  - destruct L as [|p c0 ps cs [text [_ ->]] _].
    + cbn [app]. rewrite yaml_summary_split.
      destruct (yaml_summary_text_frame n) as [m ->].
      cbn [app]. apply K. now right.
    + destruct (yaml_chunk_head (path_name p)
                  (truncate max_chars_per_file text)) as [m ->].
      cbn [app]. apply K. now left.
  - rewrite slice_to_all in L by assumption.
    inversion L as [|p c0 ps cs' [text [_ B]] _]; subst.
    destruct (yaml_chunk_head (path_name q)
                (truncate max_chars_per_file text)) as [m ->].
    apply K. now left.
Qed.

Lemma yaml_context_is_never_empty_witness :
  exists c rest,
    lit "... (3 more YAML files not included)" = c :: rest
    /\ (c = 40%N \/ c = 45%N \/ c = 46%N).
Proof.
  assert (L : load_yaml_context fs_three yaml_dir0 0 12000
              = Some (lit "... (3 more YAML files not included)"))
    by (vm_compute; reflexivity).
  exact (yaml_context_is_never_empty fs_three yaml_dir0 0 12000 _ L).
Defined.



Lemma len_app {A : Type} (a b : list A) : len (a ++ b) = len a + len b.
Proof. unfold len. rewrite length_app. lia. Qed.

(** With a cap that is not negative, the block of a YAML file is at most
    [max_chars_per_file + 27] characters longer than the name of the file:
    the header and the newlines take 10 characters and the truncation
    marker 17. *)
Theorem yaml_block_length_bound (fs : FileSystem) (max_chars_per_file : Z)
    (p : Path) (chunk : str) :
  0 <= max_chars_per_file ->
  yaml_block_of fs max_chars_per_file p chunk ->
  len chunk <= len (path_name p) + max_chars_per_file + 27.
Proof.
  intros C [text [_ ->]]. unfold yaml_chunk. rewrite !len_app.
  change (len (lit "--- ")) with 4. change (len (lit " ---")) with 4.
  change (len nl) with 1.
  enough (len (truncate max_chars_per_file text) <= max_chars_per_file + 17)
    by lia.
  unfold truncate.
  destruct (Z.gtb_spec (len text) max_chars_per_file) as [G | G]; [|lia].
  rewrite len_app. change (len TRUNCATED) with 17.
  rewrite slice_to_nonneg by assumption. unfold len in *.
  rewrite length_firstn. lia.
Qed.

(** [a.yml] holds "abc"; with a cap of two, its block has 5 + 2 + 27
    characters at most. *)
Lemma yaml_block_length_bound_witness :
  len (yaml_chunk (path_name (child yaml_dir0 (lit "a.yml")))
         (truncate 2 (lit "abc")))
  <= len (path_name (child yaml_dir0 (lit "a.yml"))) + 2 + 27.
Proof.
  assert (C : 0 <= 2) by lia.
  assert (B : yaml_block_of fs_three 2 (child yaml_dir0 (lit "a.yml"))
                (yaml_chunk (path_name (child yaml_dir0 (lit "a.yml")))
                   (truncate 2 (lit "abc")))).
  { exists (lit "abc"). split; [vm_compute; reflexivity | reflexivity]. }
  exact (yaml_block_length_bound fs_three 2 _ _ C B).
Defined.

(** ** The order of the directory listing *)

Lemma filter_perm {A : Type} (f : A -> bool) (l l' : list A) :
  Permutation l l' -> Permutation (filter f l) (filter f l').
Proof.
  induction 1 as [|x l l' _ IH|x y l|l l' l'' _ IH1 _ IH2]; cbn [filter].
  - constructor.
  - destruct (f x); [now constructor | assumption].
  - destruct (f x), (f y); try reflexivity. apply perm_swap.
  - now transitivity (filter f l').
Qed.

Lemma path_le_antisym (p q : Path) :
  path_le p q -> path_le q p -> path_compare p q = Eq.
Proof.
  unfold path_le. rewrite (path_compare_opp p q).
  destruct (path_compare p q); cbn; congruence.
Qed.

(** Two sorted lists with the same elements, where paths that compare as
    equal are equal, are the same list. *)
Lemma sorted_lists_equal (l l' : list Path) :
  (forall p q, In p l -> In q l -> path_compare p q = Eq -> p = q) ->
  StronglySorted path_le l -> StronglySorted path_le l' ->
  Permutation l l' -> l = l'.
Proof.
  intros U S. revert l' U. induction S as [|a l S IH Ha]; intros l' U S' P.
  - now apply Permutation_nil in P.
  - destruct S' as [|b l' S' Hb].
    { symmetry in P. now apply Permutation_nil in P. }
    assert (a = b) as <-.
    { assert (Ia : In a (b :: l'))
        by (apply (Permutation_in _ P); now left).
      assert (Ib : In b (a :: l))
        by (apply (Permutation_in _ (Permutation_sym P)); now left).
      destruct Ia as [-> | Ia]; [reflexivity|].
      destruct Ib as [-> | Ib]; [reflexivity|].
      rewrite Forall_forall in Ha, Hb.
      apply U; [now left | now right |].
      apply path_le_antisym; [now apply Ha | now apply Hb]. }
    f_equal. apply IH; [|assumption|now apply Permutation_cons_inv in P].
    intros p q Hp Hq. apply U; now right.
Qed.

Lemma children_compare_eq (d : Path) (names : list str) (p q : Path) :
  In p (map (child d) names) -> In q (map (child d) names) ->
  path_compare p q = Eq -> p = q.
Proof.
  rewrite !in_map_iff. intros [a [<- _]] [b [<- _]].
  rewrite path_compare_child, str_compare_eq. now intros ->.
Qed.

(** The listed files do not depend on the order in which the system lists
    the directory. *)
Lemma yaml_files_listing_order (fs1 fs2 : FileSystem) (d : Path) :
  Permutation (fs_scandir fs1 d) (fs_scandir fs2 d) ->
  yaml_files fs1 d = yaml_files fs2 d.
Proof.
  intros P. rewrite !yaml_files_eq.
  assert (Q : Permutation (map (child d) (globbed_names fs1 d))
                (map (child d) (globbed_names fs2 d))).
  { apply Permutation_map. unfold globbed_names.
    apply Permutation_app; now apply filter_perm. }
  apply sorted_lists_equal.
  - intros p q Hp Hq.
    apply (children_compare_eq d (globbed_names fs1 d));
      now apply (Permutation_in _ (sorted_perm _)).
  - apply sorted_sorted.
  - apply sorted_sorted.
  - rewrite (sorted_perm _), Q. symmetry. apply sorted_perm.
Qed.

Lemma yaml_loop_ext (fs1 fs2 : FileSystem) (max_chars_per_file : Z)
    (files : list Path) (chunks : list str) :
  (forall p, fs_read_text fs1 p = fs_read_text fs2 p) ->
  yaml_loop fs1 max_chars_per_file files chunks
  = yaml_loop fs2 max_chars_per_file files chunks.
Proof.
  intros R. revert chunks. induction files as [|p files IH]; intros chunks;
    [reflexivity|].
  cbn [yaml_loop]. unfold read_text_file. rewrite R.
  destruct (fs_read_text fs2 p); [apply IH | reflexivity].
Qed.

(** Sorting makes the YAML context independent of the order in which the
    system lists the directory: two file systems that agree on what exists,
    on what is a directory and on the text of every file, and that list
    the entries of the YAML directory in different orders, give the same
    result, for every cap. *)
Theorem yaml_context_ignores_listing_order (fs1 fs2 : FileSystem)
    (yaml_dir : Path) (max_files max_chars_per_file : Z) :
  fs_exists fs1 yaml_dir = fs_exists fs2 yaml_dir ->
  fs_is_dir fs1 yaml_dir = fs_is_dir fs2 yaml_dir ->
  (forall p, fs_read_text fs1 p = fs_read_text fs2 p) ->
  Permutation (fs_scandir fs1 yaml_dir) (fs_scandir fs2 yaml_dir) ->
  load_yaml_context fs1 yaml_dir max_files max_chars_per_file
  = load_yaml_context fs2 yaml_dir max_files max_chars_per_file.
Proof.
  intros E D R P. unfold load_yaml_context, yaml_chunks.
  rewrite E, D, (yaml_files_listing_order fs1 fs2 yaml_dir P).
  now rewrite (yaml_loop_ext fs1 fs2 _ _ _ R).
Qed.

(** The three YAML files, listed in two opposite orders. *)
Lemma yaml_context_ignores_listing_order_witness :
  fs_scandir fs_three yaml_dir0 <> fs_scandir fs_three_reversed yaml_dir0
  /\ load_yaml_context fs_three yaml_dir0 2 12000
     = load_yaml_context fs_three_reversed yaml_dir0 2 12000.
Proof.
  split; [intros H; vm_compute in H; discriminate H|].
  exact (yaml_context_ignores_listing_order fs_three fs_three_reversed
           yaml_dir0 2 12000 eq_refl eq_refl (fun p => eq_refl)
           (Permutation_rev (fs_scandir fs_three yaml_dir0))).
Defined.

(** ** The prompt of [main] *)

Lemma build_prompt_value (markdown_context yaml_context : str) :
  build_prompt markdown_context yaml_context
  = Some (template_pre ++ markdown_context ++ template_mid
          ++ yaml_context ++ template_post).
Proof.
  unfold build_prompt. rewrite template_split.
  change (lit "{markdown_context}")
    with (lbrace :: lit "markdown_context" ++ [rbrace]).
  change (lit "{yaml_context}") with (lbrace :: lit "yaml_context" ++ [rbrace]).
  apply format_two_fields;
    try (intros E; vm_compute in E; discriminate E);
    vm_compute; reflexivity.
Qed.

(** The prompt that [main] writes is the template around the two contexts,
    the Markdown context of the four default names and the YAML context
    with the character cap of 12000; [main] fails before writing anything
    exactly when one of the two aggregators fails, and building the prompt
    adds no failure of its own. The character count that [main] prints is
    3258, the length of the template without its placeholders, plus the
    lengths of the two contexts. *)
Theorem main_prompt_is_template_around_contexts (fs : FileSystem)
    (data_dir yaml_dir : Path) (max_yaml_files : Z) :
  main_prompt fs data_dir yaml_dir max_yaml_files
  = match load_markdown_context fs data_dir DEFAULT_MD_FILES,
          load_yaml_context fs yaml_dir max_yaml_files 12000 with
    | Some markdown_context, Some yaml_context =>
      Some (template_pre ++ markdown_context ++ template_mid
            ++ yaml_context ++ template_post)
    | _, _ => None
    end
  /\ forall markdown_context yaml_context : str,
       len (template_pre ++ markdown_context ++ template_mid
            ++ yaml_context ++ template_post)
       = 3258 + len markdown_context + len yaml_context.
Proof.
  split.
  - unfold main_prompt.
    destruct (load_markdown_context fs data_dir DEFAULT_MD_FILES);
      [|reflexivity].
    destruct (load_yaml_context fs yaml_dir max_yaml_files 12000);
      [|reflexivity].
    apply build_prompt_value.
  - intros m y.
    assert (P : len template_pre = 3166) by (vm_compute; reflexivity).
    assert (M : len template_mid = 91) by (vm_compute; reflexivity).
    assert (Q : len template_post = 1) by (vm_compute; reflexivity).
    rewrite !len_app, P, M, Q. lia.
Qed.

(** ** The files that the YAML aggregator lists *)

Lemma child_inj (d : Path) (a b : str) : child d a = child d b -> a = b.
Proof.
  intros H. apply (f_equal path_name) in H. now rewrite !path_name_child in H.
Qed.

Lemma children_nodup (d : Path) (names : list str) :
  NoDup names -> NoDup (map (child d) names).
Proof.
  induction 1 as [|n names Hn _ IH]; cbn [map]; constructor; [|exact IH].
  rewrite in_map_iff. intros [m [E Hm]].
  apply child_inj in E. now subst m.
Qed.

(** The files that the YAML aggregator lists are the direct entries of the
    YAML directory whose name ends with [.yml] or [.yaml], and nothing
    else: no other file, and nothing below a subdirectory. An entry that
    the system lists once is listed once, so no file gets two blocks. *)
Theorem yaml_files_are_the_yaml_entries (fs : FileSystem) (yaml_dir : Path) :
  (forall p,
     In p (yaml_files fs yaml_dir)
     <-> exists name,
           p = child yaml_dir name
           /\ In name (fs_scandir fs yaml_dir)
           /\ has_yaml_ext name = true)
  /\ (NoDup (fs_scandir fs yaml_dir) -> NoDup (yaml_files fs yaml_dir)).
Proof.
  pose proof (globbed_names_perm fs yaml_dir) as G.
  pose proof (sorted_perm (map (child yaml_dir) (globbed_names fs yaml_dir)))
    as S.
  rewrite <- yaml_files_eq in S. split.
  - intros p. split.
    + intros H. apply (Permutation_in _ S) in H.
      apply in_map_iff in H as [name [<- H]].
      apply (Permutation_in _ G), filter_In in H.
      now exists name.
    + intros [name [-> [H E]]].
      apply (Permutation_in _ (Permutation_sym S)), in_map.
      apply (Permutation_in _ (Permutation_sym G)), filter_In. now split.
  - intros N. apply (Permutation_NoDup (Permutation_sym S)).
    apply children_nodup.
    apply (Permutation_NoDup (Permutation_sym G)).
    now apply NoDup_filter.
Qed.

(** [notes.txt] is an entry of the directory and is not listed; [b.yaml]
    is. *)
Lemma yaml_files_are_the_yaml_entries_witness :
  In (child yaml_dir0 (lit "b.yaml")) (yaml_files fs_three yaml_dir0)
  /\ NoDup (yaml_files fs_three yaml_dir0).
Proof.
  assert (I : In (lit "b.yaml") (fs_scandir fs_three yaml_dir0))
    by (vm_compute; right; right; right; left; reflexivity).
  assert (X : has_yaml_ext (lit "b.yaml") = true)
    by (vm_compute; reflexivity).
  assert (N : NoDup (fs_scandir fs_three yaml_dir0)).
  { vm_compute. repeat constructor; cbn [In]; intros H;
      repeat (destruct H as [H | H]; [discriminate H|]); exact H. }
  split.
  - exact (proj2 (proj1 (yaml_files_are_the_yaml_entries fs_three yaml_dir0)
                    (child yaml_dir0 (lit "b.yaml")))
             (ex_intro _ (lit "b.yaml") (conj eq_refl (conj I X)))).
  - exact (proj2 (yaml_files_are_the_yaml_entries fs_three yaml_dir0) N).
Defined.
